(** * Serial Test Tool: the test-plan loader and the run engine

    A shallow embedding of [otn_Pre_test_v10.py]: the record normaliser
    ([safe_int], [safe_float], [normalize_row]) and the execution engine
    ([run_all], [_run_worker], [_mark_running], [_mark_pass], [_mark_fail],
    [_mark_error]), with the properties of the engine stated and proved
    against that embedding.

    Conventions.
    - Python [str] is [string]; the characters are the ASCII ones.
    - A JSON value is a [pyval]; a JSON object is a [gmap string pyval].
    - Python's [float], its conversions and the [.2f] format, the [re]
      module and [textwrap.wrap] belong to the Python runtime, not to this
      program: they are the variables of the sections below.
    - Wall-clock time is an integer number of milliseconds; only
      [time.sleep] takes time, 50 ms plus an oversleep that the outside
      world chooses.
    - The serial line, the Stop button and the clock are the outside world:
      an [attempt_env] per attempt says what they do.
    - The calls into Tk succeed, and the table hands back the strings that
      were put into it. *)

From stdpp Require Import gmap strings list fin_maps pretty.
From Stdlib Require Import ZArith Ascii String Lia.

#[local] Set Warnings "-register-all".
#[local] Open Scope string_scope.
#[local] Open Scope Z_scope.

(** ** Python strings *)

(** [str.isspace] on the ASCII range: TAB..CR, FS..US and the blank. *)
Definition py_isspace (c : ascii) : bool :=
  let n := nat_of_ascii c in
  ((9 <=? n)%nat && (n <=? 13)%nat) || ((28 <=? n)%nat && (n <=? 32)%nat).

Fixpoint lstrip (s : string) : string :=
  match s with
  | String c s' => if py_isspace c then lstrip s' else s
  | EmptyString => EmptyString
  end.

Definition rstrip (s : string) : string := String.rev (lstrip (String.rev s)).

(** [s.strip()] *)
Definition strip (s : string) : string := rstrip (lstrip s).

(** [s[:n]] *)
Fixpoint str_take (n : nat) (s : string) : string :=
  match n, s with
  | S n', String c s' => String c (str_take n' s')
  | _, _ => EmptyString
  end.

(** [sub in s] *)
Fixpoint contains (sub s : string) : bool :=
  String.prefix sub s ||
  match s with
  | String _ s' => contains sub s'
  | EmptyString => false
  end.

(** Truthiness of a [str]: [bool(s)]. *)
Definition nonempty (s : string) : bool :=
  match s with EmptyString => false | String _ _ => true end.

(** [s.replace(chr(10), chr(32))] *)
Fixpoint newlines_to_blanks (s : string) : string :=
  match s with
  | EmptyString => EmptyString
  | String c s' =>
      String (if Ascii.eqb c "010"%char then " "%char else c) (newlines_to_blanks s')
  end.

(** ** Integer literals accepted by [int(str)] *)

Definition digit_val (c : ascii) : option Z :=
  let n := nat_of_ascii c in
  if (48 <=? n)%nat && (n <=? 57)%nat then Some (Z.of_nat (n - 48)) else None.

(** Digits after the first one; a single underscore may separate two digits. *)
Fixpoint int_digits (acc : Z) (s : string) : option Z :=
  match s with
  | EmptyString => Some acc
  | String c s' =>
      if Ascii.eqb c "_"%char then
        match s' with
        | String d s'' =>
            match digit_val d with
            | Some v => int_digits (10 * acc + v) s''
            | None => None
            end
        | EmptyString => None
        end
      else
        match digit_val c with
        | Some v => int_digits (10 * acc + v) s'
        | None => None
        end
  end.

Definition int_unsigned (s : string) : option Z :=
  match s with
  | String d s' =>
      match digit_val d with
      | Some v => int_digits v s'
      | None => None
      end
  | EmptyString => None
  end.

(** [int(s)] for a string [s]; [None] stands for [ValueError]. *)
Definition int_of_str (s : string) : option Z :=
  match strip s with
  | String c r =>
      if Ascii.eqb c "-"%char then Z.opp <$> int_unsigned r
      else if Ascii.eqb c "+"%char then int_unsigned r
      else int_unsigned (String c r)
  | EmptyString => None
  end.

(** ** Python values, as [json.load] produces them *)

Inductive pyval (F : Type) : Type :=
| PNone
| PBool (b : bool)
| PInt (z : Z)
| PFloat (f : F)
| PStr (s : string)
| PList (l : list (pyval F))
| PDict (d : gmap string (pyval F)).

Arguments PNone {F}.
Arguments PBool {F} b.
Arguments PInt {F} z.
Arguments PFloat {F} f.
Arguments PStr {F} s.
Arguments PList {F} l.
Arguments PDict {F} d.

(** ** The test-plan loader *)

Section Loader.

(** Python's [float]: the type, [float(int)] ([None] is [OverflowError]),
    [float(str)] ([None] is [ValueError]), [int(float)] ([None] for a NaN
    or an infinity), the test [f != 0.0] and the constant [1.0]. *)
Context {pyfloat : Type}.
Context (float_of_int : Z → option pyfloat).
Context (float_of_str : string → option pyfloat).
Context (float_trunc : pyfloat → option Z).
Context (float_nonzero : pyfloat → bool).
Context (one_point_zero : pyfloat).

Abbreviation value := (pyval pyfloat).

(** [int(v)]; [None] when Python raises. *)
Definition py_int (v : value) : option Z :=
  match v with
  | PInt z => Some z
  | PBool b => Some (if b then 1 else 0)
  | PFloat f => float_trunc f
  | PStr s => int_of_str s
  | PNone | PList _ | PDict _ => None
  end.

(** [float(v)]; [None] when Python raises. *)
Definition py_float (v : value) : option pyfloat :=
  match v with
  | PFloat f => Some f
  | PInt z => float_of_int z
  | PBool b => float_of_int (if b then 1 else 0)
  | PStr s => float_of_str s
  | PNone | PList _ | PDict _ => None
  end.

(** [bool(v)] *)
Definition py_bool (v : value) : bool :=
  match v with
  | PNone => false
  | PBool b => b
  | PInt z => negb (z =? 0)
  | PFloat f => float_nonzero f
  | PStr s => nonempty s
  | PList l => match l with [] => false | _ :: _ => true end
  | PDict d => negb (bool_decide (d = ∅))
  end.

(** [safe_int(v, default)]: the bare [except] swallows every failure. *)
Definition safe_int (v : value) (dflt : Z) : Z :=
  match py_int v with
  | Some z => z
  | None => dflt
  end.

(** [safe_float(v, default)] *)
Definition safe_float (v : value) (dflt : pyfloat) : pyfloat :=
  match py_float v with
  | Some f => f
  | None => dflt
  end.

(** The default values of the two [def] lines. *)
Definition safe_int_default : Z := 0.
Definition safe_float_default : pyfloat := one_point_zero.

Definition JSON_FIELDS : list string :=
  ["command_name"; "command"; "expected"; "expected_regex"; "negative";
   "wait_till"; "print_after"; "print_ahead_chars"; "message"; "retries"].

Definition DEFAULT_ROW : gmap string value :=
  <["command_name" := PStr ""]> (
  <["command" := PStr ""]> (
  <["expected" := PStr ""]> (
  <["expected_regex" := PStr ""]> (
  <["negative" := PBool false]> (
  <["wait_till" := PFloat one_point_zero]> (
  <["print_after" := PStr ""]> (
  <["print_ahead_chars" := PInt 40]> (
  <["message" := PStr ""]> (
  <["retries" := PInt 0]> ∅))))))))).

(** [out.get(k, d)] *)
Definition dict_get (out : gmap string value) (k : string) (d : value) : value :=
  default d (out !! k).

(** The loop [for k in JSON_FIELDS: if k in row: out[k] = row[k]]. *)
Fixpoint copy_fields (ks : list string) (row out : gmap string value)
  : gmap string value :=
  match ks with
  | [] => out
  | k :: ks' =>
      copy_fields ks' row
        (match row !! k with
         | Some v => <[k := v]> out
         | None => out
         end)
  end.

(** [normalize_row(row)].  The three numeric coercions call [safe_int] and
    [safe_float] with one argument, so each falls back on the default of
    the [def] line, not on the second argument of [out.get]. *)
Definition normalize_row (row : value) : gmap string value :=
  let out := DEFAULT_ROW in
  match row with
  | PDict r =>
      let out := copy_fields JSON_FIELDS r out in
      let out := <["negative" := PBool (py_bool (dict_get out "negative" (PBool false)))]> out in
      let out := <["wait_till" :=
                    PFloat (safe_float (dict_get out "wait_till" (PFloat one_point_zero))
                                       safe_float_default)]> out in
      let out := <["print_ahead_chars" :=
                    PInt (safe_int (dict_get out "print_ahead_chars" (PInt 40))
                                   safe_int_default)]> out in
      let out := <["retries" :=
                    PInt (safe_int (dict_get out "retries" (PInt 0)) safe_int_default)]> out in
      out
  | _ => out
  end.

End Loader.

(** ** Exceptions *)

(** A computation that returns or raises; [Raise e] carries [str(e)]. *)
Inductive res (A : Type) : Type :=
| Ok (a : A)
| Raise (e : string).

Arguments Ok {A} a.
Arguments Raise {A} e.

Definition res_bind {A B : Type} (m : res A) (k : A → res B) : res B :=
  match m with
  | Ok a => k a
  | Raise e => Raise e
  end.

Declare Scope res_scope.
Delimit Scope res_scope with res.
Notation "'do' x <- m ; k" := (res_bind m (fun x => k))
  (at level 10, x name, m at level 100, k at level 200) : res_scope.

(** [try: body except Exception as e: handler(str(e))] *)
Definition try_except {A : Type} (body : res A) (handler : string → res A) : res A :=
  match body with
  | Ok a => Ok a
  | Raise e => handler e
  end.

(** ** The results table *)

(** One line of [live_tree]: its nine cells and its colour tag. *)
Record item : Type := Item { values : list string; tags : string }.

(** [vals[i]], with the [IndexError] of a short row. *)
Definition get_cell (i : nat) (vals : list string) : res string :=
  match vals !! i with
  | Some v => Ok v
  | None => Raise "tuple index out of range"
  end.

(** [vals[i] = v], with the [IndexError] of a short row. *)
Definition set_cell (i : nat) (v : string) (vals : list string) : res (list string) :=
  if decide (i < List.length vals)%nat then Ok (<[i := v]> vals)
  else Raise "list assignment index out of range".

(** [a or b] on strings *)
Definition str_or (a b : string) : string := if nonempty a then a else b.

Definition IDX_FOUND : nat := 5.
Definition IDX_RESULT : nat := 6.
Definition IDX_DURATION : nat := 7.
Definition IDX_SNIPPET : nat := 8.

(** The verdict shown in a line (column "Result"). *)
Definition verdict (it : item) : option string := values it !! IDX_RESULT.

Definition terminal (it : item) : Prop :=
  verdict it = Some "PASS" ∨ verdict it = Some "FAIL" ∨ verdict it = Some "ERROR".

(** ** The serial line, seen from one attempt *)

(** What [reset_input_buffer] and [write] do at the start of an attempt. *)
Inductive link_answer : Type :=
| LinkAbsent                 (* [self.ser] is [None]: nothing is sent *)
| ResetFault (msg : string)  (* [reset_input_buffer] raises *)
| WriteFault (msg : string)  (* [write] raises *)
| LinkOk.

(** What one pass of the wait loop finds on the line. *)
Inductive poll_answer : Type :=
| PollIdle                   (* no [self.ser], or [in_waiting] is 0 *)
| PollFault (msg : string)   (* [in_waiting] or [read] raises *)
| PollData (s : string).     (* the decoded bytes read *)

(** One pass: how long [time.sleep(0.05)] overslept, in ms, and the line. *)
Record poll : Type := Poll { lag : nat; answer : poll_answer }.

(** All that the outside world does during one attempt; [stop_pressed]
    tells whether the operator presses Stop between the check of
    [stop_flag] that starts this attempt and the next check. *)
Record attempt_env : Type :=
  AttemptEnv { link : link_answer; polls : list poll; stop_pressed : bool }.

Definition idle_poll : poll := Poll 0 PollIdle.
Definition quiet_env : attempt_env := AttemptEnv LinkOk [] false.

(** [timeout = 3.0], in ms *)
Definition timeout : Z := 3000.
(** [time.sleep(0.05)], in ms *)
Definition POLL_PERIOD : Z := 50.

Definition CRLF : string := String "013" (String "010" EmptyString).

(** [sep.join(l)] *)
Fixpoint str_join (sep : string) (l : list string) : string :=
  match l with
  | [] => ""
  | [s] => s
  | s :: l' => s ++ sep ++ str_join sep l'
  end.

(** ** The run engine *)

(** What a run leaves behind: the table, the commands written on the line,
    in order, and the exception that ended the worker, if one escaped. *)
Record run_state : Type :=
  RunState { tree : list item; sent : list string; escaped : option string }.

(** How a call of [run_all] ends. *)
Inductive launch : Type :=
| NoTests
| NoConnection
| Crashed (e : string)
| Ran (st : run_state).

Section Engine.

(** The Python runtime: [re.compile] ([Some e] for a pattern that raises
    [re.error], with [str(e)]), [re.search] for a pattern that compiles,
    [textwrap.wrap], the format [.2f] of a duration (given in ms), and the
    text Tk shows for a value that is not a string. *)
Context {pyfloat : Type}.
Context (re_error : string → option string).
Context (re_find : string → string → bool).
Context (textwrap_wrap : string → nat → list string).
Context (format_2f : Z → string).
Context (tk_str : pyval pyfloat → string).

Abbreviation testcase := (gmap string (pyval pyfloat)).

(** [wrap_text(text, width=50)] *)
Definition wrap_text (text : string) : string :=
  str_join (String "010" EmptyString) (textwrap_wrap text 50).

(** [re.search(regex, buf)], as a truth value *)
Definition re_search (regex buf : string) : res bool :=
  match re_error regex with
  | Some e => Raise e
  | None => Ok (re_find regex buf)
  end.

(** The two tests of one pass of the wait loop: [Ok true] is [found = True]
    followed by [break]. *)
Definition check_buffer (expected regex buf : string) : res bool :=
  if nonempty expected && contains expected buf then Ok true
  else if nonempty regex then re_search regex buf
  else Ok false.

(** *** Status markers *)

Definition _mark_running (it : item) : res item :=
  (do vals <- set_cell IDX_RESULT "RUNNING" (values it);
   Ok (Item vals "running"))%res.

Definition _mark_pass (it : item) (snippet msg : string) (dur : Z) : res item :=
  (do vals <- set_cell IDX_FOUND "YES" (values it);
   do vals <- set_cell IDX_RESULT "PASS" vals;
   do vals <- set_cell IDX_DURATION (format_2f dur) vals;
   do vals <- set_cell IDX_SNIPPET (str_or msg snippet) vals;
   Ok (Item vals "pass"))%res.

Definition _mark_fail (it : item) (snippet msg : string) (dur : Z) : res item :=
  (do vals <- set_cell IDX_FOUND "NO" (values it);
   do vals <- set_cell IDX_RESULT "FAIL" vals;
   do vals <- set_cell IDX_DURATION (format_2f dur) vals;
   do vals <- set_cell IDX_SNIPPET (str_or msg snippet) vals;
   Ok (Item vals "fail"))%res.

Definition _mark_error (it : item) (msg : string) : res item :=
  (do vals <- set_cell IDX_FOUND "?" (values it);
   do vals <- set_cell IDX_RESULT "ERROR" vals;
   do vals <- set_cell IDX_SNIPPET msg vals;
   Ok (Item vals "error"))%res.

(** *** One attempt *)

(** [reset_input_buffer] and [write], guarded by [if self.ser]. *)
Definition transmit (l : link_answer) : res unit :=
  match l with
  | ResetFault m | WriteFault m => Raise m
  | LinkAbsent | LinkOk => Ok tt
  end.

(** The bytes that reached the line. *)
Definition sent_by (cmd : string) (l : link_answer) : list string :=
  match l with
  | LinkOk => [cmd ++ CRLF]
  | _ => []
  end.

Definition poll_text (a : poll_answer) : string :=
  match a with
  | PollData s => s
  | _ => ""
  end.

(** The [while time.time()-t0 < timeout] loop.  [elapsed] is the clock
    reading minus [t0]; the result is [(found, buf, dur)].  [None] means
    that [fuel] passes were not enough. *)
Fixpoint wait_loop (fuel : nat) (expected regex buf : string) (elapsed : Z)
    (ps : list poll) : option (res (bool * string * Z)) :=
  if decide (elapsed < timeout) then
    match fuel with
    | O => None
    | S fuel' =>
        let p := List.hd idle_poll ps in
        let elapsed' := elapsed + POLL_PERIOD + Z.of_nat (lag p) in
        match answer p with
        | PollFault msg => Some (Raise msg)
        | a =>
            let buf' := buf ++ poll_text a in
            match check_buffer expected regex buf' with
            | Raise e => Some (Raise e)
            | Ok true => Some (Ok (true, buf', elapsed'))
            | Ok false => wait_loop fuel' expected regex buf' elapsed' (List.tl ps)
            end
        end
    end
  else Some (Ok (false, buf, elapsed)).

(** Sixty sleeps of 50 ms fill the window. *)
Definition POLL_BUDGET : nat := 60.

(** The body of the [try]. *)
Definition attempt_body (it1 : item) (expected regex : string) (negative : bool)
    (msg : string) (e : attempt_env) : option (res item) :=
  match transmit (link e) with
  | Raise m => Some (Raise m)
  | Ok _ =>
      w ← wait_loop POLL_BUDGET expected regex "" 0 (polls e);
      Some (do r <- w;
            let '(found, buf, dur) := r in
            let snippet := str_take 80 (strip buf) in
            if xorb found negative then _mark_pass it1 snippet msg dur
            else _mark_fail it1 snippet msg dur)%res
  end.

(** The body of the [for] loop of [_run_worker] after the stop check: the
    new line, the bytes written, and the exception that escapes, if any. *)
Definition run_one (it : item) (e : attempt_env)
  : option (item * list string * option string) :=
  match _mark_running it with
  | Raise x => Some (it, [], Some x)
  | Ok it1 =>
      match (do cmd <- get_cell 2 (values it1);
             do expected <- get_cell 3 (values it1);
             do regex <- get_cell 4 (values it1);
             Ok (cmd, expected, regex))%res with
      | Raise x => Some (it1, [], Some x)
      | Ok (cmd, expected, regex) =>
          let cmd := newlines_to_blanks cmd in
          let negative := false in
          let msg := "" in
          body ← attempt_body it1 expected regex negative msg e;
          Some (match try_except body (_mark_error it1) with
                | Ok it2 => (it2, sent_by cmd (link e), None)
                | Raise x => (it1, sent_by cmd (link e), Some x)
                end)
      end
  end.

(** [_run_worker]: [children] are the lines still to visit, [envs] what the
    outside world does during each of them. *)
Fixpoint _run_worker (children : list item) (envs : list attempt_env)
    (stop_flag : bool) : option run_state :=
  match children with
  | [] => Some (RunState [] [] None)
  | it :: rest =>
      if stop_flag then Some (RunState children [] None)
      else
        let e := List.hd quiet_env envs in
        r ← run_one it e;
        match r with
        | (it', log, Some x) => Some (RunState (it' :: rest) log (Some x))
        | (it', log, None) =>
            st ← _run_worker rest (List.tl envs) (stop_flag || stop_pressed e);
            Some (RunState (it' :: tree st) (log ++ sent st)%list (escaped st))
        end
  end.

(** *** Scheduling *)

(** [t.get(k, "")], as the table shows it *)
Definition field_text (t : testcase) (k : string) : string :=
  match t !! k with
  | None => ""
  | Some (PStr s) => s
  | Some v => tk_str v
  end.

(** [wrap_text(t.get("command", ""))]; [textwrap] wants a string. *)
Definition command_text (t : testcase) : res string :=
  match t !! "command" with
  | None => Ok (wrap_text "")
  | Some (PStr s) => Ok (wrap_text s)
  | Some _ => Raise "object has no attribute 'expandtabs'"
  end.

Definition pending_item (it : nat) (t : testcase) : res item :=
  (do c <- command_text t;
   Ok (Item [pretty it; field_text t "command_name"; c; field_text t "expected";
             field_text t "expected_regex"; ""; "PENDING"; ""; ""] "pending"))%res.

Fixpoint rows_of_iteration (it : nat) (tests : list testcase) : res (list item) :=
  match tests with
  | [] => Ok []
  | t :: ts =>
      (do r <- pending_item it t;
       do rs <- rows_of_iteration it ts;
       Ok (r :: rs))%res
  end.

(** The lines of iterations [it], [it+1], ..., [it+n-1]. *)
Fixpoint rows_from (it n : nat) (tests : list testcase) : res (list item) :=
  match n with
  | O => Ok []
  | S n' =>
      (do a <- rows_of_iteration it tests;
       do b <- rows_from (S it) n' tests;
       Ok (a ++ b)%list)%res
  end.

Definition pending_rows (iters : nat) (tests : list testcase) : res (list item) :=
  rows_from 1 iters tests.

(** [run_all], followed by the worker it starts. *)
Definition run_all (tests : list testcase) (ser_open : bool) (iter_var : Z)
    (envs : list attempt_env) : option launch :=
  match tests with
  | [] => Some NoTests
  | _ :: _ =>
      if negb ser_open then Some NoConnection
      else
        let iters := Z.to_nat (Z.max 1 iter_var) in
        match pending_rows iters tests with
        | Raise e => Some (Crashed e)
        | Ok rows => st ← _run_worker rows envs false; Some (Ran st)
        end
  end.

End Engine.

(** ** The vocabulary of the properties *)

(** [sub] occurs in [s]. *)
Definition is_substring (sub s : string) : Prop :=
  ∃ pre post, s = pre ++ sub ++ post.

(** Every line that [run_all] inserts has nine cells. *)
Definition wf_item (it : item) : Prop := List.length (values it) = 9%nat.

(** The cell in column [i], blank when the line is too short. *)
Definition cell (i : nat) (it : item) : string := default "" (values it !! i).

(** The line after [_mark_running], and after [_mark_error]. *)
Definition running_item (it : item) : item :=
  Item (<[IDX_RESULT := "RUNNING"]> (values it)) "running".

Definition error_item (it : item) (msg : string) : item :=
  Item (<[IDX_SNIPPET := msg]>
          (<[IDX_RESULT := "ERROR"]> (<[IDX_FOUND := "?"]> (values it)))) "error".

(** How the [try] block of one attempt ends. *)
Inductive outcome : Type :=
| Passed (buf : string) (dur : Z)
| Failed (buf : string) (dur : Z)
| Errored (msg : string).

Definition outcome_text (o : outcome) : string :=
  match o with
  | Passed _ _ => "PASS"
  | Failed _ _ => "FAIL"
  | Errored _ => "ERROR"
  end.

(** No pass of the wait loop oversleeps. *)
Definition punctual (ps : list poll) : Prop := Forall (λ p, lag p = 0%nat) ps.

(** What [n] passes of the wait loop read, and how long they take. *)
Fixpoint drained (n : nat) (ps : list poll) : string :=
  match n with
  | O => ""
  | S n' => poll_text (answer (List.hd idle_poll ps)) ++ drained n' (List.tl ps)
  end.

Fixpoint slept (n : nat) (ps : list poll) : Z :=
  match n with
  | O => 0
  | S n' => POLL_PERIOD + Z.of_nat (lag (List.hd idle_poll ps)) + slept n' (List.tl ps)
  end.

(** The same outside world with the Stop button never pressed. *)
Definition never_stop (envs : list attempt_env) : list attempt_env :=
  (λ e, AttemptEnv (link e) (polls e) false) <$> envs.

(** Stop is pressed for the first time while line [k] (counted from 0) is
    being run, or after it and before the next check of the flag. *)
Definition stop_first_pressed_at (k : nat) (envs : list attempt_env) : Prop :=
  (∀ j, (j < k)%nat → stop_pressed (nth j envs quiet_env) = false)
  ∧ stop_pressed (nth k envs quiet_env) = true.

(** The line answers and the very first pass of the wait loop already
    finds the literal in what it reads. *)
Definition first_poll_hit (expected : string) (e : attempt_env) : bool :=
  match transmit (link e) with
  | Raise _ => false
  | Ok _ =>
      match answer (List.hd idle_poll (polls e)) with
      | PollFault _ => false
      | a => nonempty expected && contains expected (poll_text a)
      end
  end.

(** The four fields that [run_all] copies into the table. *)
Definition shown_fields : list string :=
  ["command_name"; "command"; "expected"; "expected_regex"].

(** The fields of a test case that never reach the table. *)
Definition hidden_fields : list string :=
  ["negative"; "wait_till"; "print_after"; "print_ahead_chars"; "message"; "retries"].

(** A line as [run_all] inserts it. *)
Definition scheduled (r : item) : Prop :=
  wf_item r ∧ verdict r = Some "PENDING" ∧ values r !! IDX_DURATION = Some "".

Section Vocabulary.

Context {pyfloat : Type}.
Context (re_error : string → option string).
Context (re_find : string → string → bool).
Context (format_2f : Z → string).

(** Two test cases that [run_all] cannot tell apart. *)
Definition same_shown (t t' : gmap string (pyval pyfloat)) : Prop :=
  ∀ k, k ∈ shown_fields → t !! k = t' !! k.

(** The line after [_mark_pass], and after [_mark_fail]. *)
Definition pass_item (it : item) (snippet msg : string) (dur : Z) : item :=
  Item (<[IDX_SNIPPET := str_or msg snippet]>
          (<[IDX_DURATION := format_2f dur]>
             (<[IDX_RESULT := "PASS"]> (<[IDX_FOUND := "YES"]> (values it))))) "pass".

Definition fail_item (it : item) (snippet msg : string) (dur : Z) : item :=
  Item (<[IDX_SNIPPET := str_or msg snippet]>
          (<[IDX_DURATION := format_2f dur]>
             (<[IDX_RESULT := "FAIL"]> (<[IDX_FOUND := "NO"]> (values it))))) "fail".

(** The [try] block up to the choice of the marker. *)
Definition attempt_outcome (expected regex : string) (e : attempt_env)
  : option outcome :=
  match transmit (link e) with
  | Raise m => Some (Errored m)
  | Ok _ =>
      w ← wait_loop re_error re_find POLL_BUDGET expected regex "" 0 (polls e);
      Some (match w with
            | Raise m => Errored m
            | Ok (true, buf, dur) => Passed buf dur
            | Ok (false, buf, dur) => Failed buf dur
            end)
  end.

(** The line as the marker called at the end of the attempt leaves it;
    [_run_worker] passes the constant [msg = ""]. *)
Definition settle (it1 : item) (o : outcome) : item :=
  match o with
  | Passed buf dur => pass_item it1 (str_take 80 (strip buf)) "" dur
  | Failed buf dur => fail_item it1 (str_take 80 (strip buf)) "" dur
  | Errored msg => error_item it1 msg
  end.

(** The wait loop, entered with buffer [buf] at time [elapsed], comes to a
    pass where [in_waiting] or [read] raises [msg]. *)
Inductive reads_fault (expected regex : string)
  : string → Z → list poll → string → Prop :=
| fault_now buf elapsed p ps msg :
    elapsed < timeout →
    answer p = PollFault msg →
    reads_fault expected regex buf elapsed (p :: ps) msg
| fault_later buf elapsed p ps msg :
    elapsed < timeout →
    (∀ m, answer p ≠ PollFault m) →
    check_buffer re_error re_find expected regex (buf ++ poll_text (answer p))
      = Ok false →
    reads_fault expected regex (buf ++ poll_text (answer p))
      (elapsed + POLL_PERIOD + Z.of_nat (lag p)) ps msg →
    reads_fault expected regex buf elapsed (p :: ps) msg.

(** A transport exception during the write or the read loop. *)
Definition transport_fault (expected regex : string) (e : attempt_env)
    (msg : string) : Prop :=
  link e = ResetFault msg
  ∨ link e = WriteFault msg
  ∨ ((link e = LinkOk ∨ link e = LinkAbsent)
     ∧ reads_fault expected regex "" 0 (polls e) msg).

(** Following the specification's words: on FAIL or ERROR, while the
    attempt counter is below [retries + 1], the whole attempt is run again
    for the same line, and only the last outcome is recorded.  The result
    is that outcome and the number of attempts made. *)
Fixpoint spec_attempts_with_retries (retries : nat) (expected regex : string)
    (envs : list attempt_env) : option (outcome * nat) :=
  o ← attempt_outcome expected regex (List.hd quiet_env envs);
  match o, retries with
  | Passed _ _, _ => Some (o, 1%nat)
  | _, O => Some (o, 1%nat)
  | _, S r =>
      '(o', n) ← spec_attempts_with_retries r expected regex (List.tl envs);
      Some (o', S n)
  end.

End Vocabulary.

(** ** A stand-in runtime, for running the model on examples

    Patterns are literal text and a lone opening parenthesis does not
    compile; a text of at most one short line wraps to itself; a duration is
    cut to centiseconds; floats are counted in thousandths and read from
    integer literals only. *)

Definition demo_re_error (p : string) : option string :=
  if String.eqb p "(" then Some "missing ), unterminated subpattern at position 0"
  else None.

Definition demo_re_find (p s : string) : bool := contains p s.

Definition demo_wrap (text : string) (width : nat) : list string :=
  if nonempty text then [text] else [].

Definition two_digits (n : Z) : string :=
  if n <? 10 then "0" ++ pretty n else pretty n.

Definition demo_format_2f (ms : Z) : string :=
  pretty (ms / 1000) ++ "." ++ two_digits ((ms mod 1000) / 10).

Definition demo_tk_str (v : pyval Z) : string := "".

Definition demo_float_of_int (z : Z) : option Z := Some (1000 * z).
Definition demo_float_of_str (s : string) : option Z := Z.mul 1000 <$> int_of_str s.
Definition demo_float_trunc (f : Z) : option Z := Some (Z.quot f 1000).
Definition demo_float_nonzero (f : Z) : bool := negb (f =? 0).

Definition demo_normalize_row : pyval Z → gmap string (pyval Z) :=
  normalize_row demo_float_of_int demo_float_of_str demo_float_trunc
                demo_float_nonzero 1000.

Definition demo_run_all
  : list (gmap string (pyval Z)) → bool → Z → list attempt_env → option launch :=
  run_all demo_re_error demo_re_find demo_wrap demo_format_2f demo_tk_str.

(** ** Examples of test cases, lines and devices *)

(** The device answers OK at the first pass. *)
Definition echo_ok : attempt_env :=
  AttemptEnv LinkOk [Poll 0 (PollData ("OK" ++ CRLF))] false.

(** The device stays silent. *)
Definition silent : attempt_env := AttemptEnv LinkOk [] false.

Definition at_case (extra : gmap string (pyval Z)) : gmap string (pyval Z) :=
  demo_normalize_row
    (PDict (<["command" := PStr "AT"]> (<["expected" := PStr "OK"]> extra))).

Definition negative_case : gmap string (pyval Z) :=
  at_case (<["negative" := PBool true]> ∅).

Definition message_case : gmap string (pyval Z) :=
  at_case (<["message" := PStr "Modem ready"]> ∅).

Definition retry_case : gmap string (pyval Z) :=
  at_case (<["retries" := PInt 1]> ∅).

Definition bad_regex_case : gmap string (pyval Z) :=
  at_case (<["expected_regex" := PStr "("]> ∅).

(** [t["retries"]] of a normalised test case *)
Definition retries_of (t : gmap string (pyval Z)) : nat :=
  match t !! "retries" with
  | Some (PInt z) => Z.to_nat z
  | _ => O
  end.

(** The retry policy of the specification, read off a run of one test
    case: the line shows the last outcome of the policy and as many
    commands went out as the policy makes attempts. *)
Definition retries_honoured (t : gmap string (pyval Z)) (envs : list attempt_env)
  : Prop :=
  ∀ st, demo_run_all [t] true 1 envs = Some (Ran st) →
  ∃ o n,
    spec_attempts_with_retries demo_re_error demo_re_find (retries_of t)
      (field_text demo_tk_str t "expected")
      (field_text demo_tk_str t "expected_regex") envs = Some (o, n)
    ∧ verdict <$> tree st = [Some (outcome_text o)]
    ∧ List.length (sent st) = n.

(** A scheduled line for the command AT, expecting OK. *)
Definition at_line : item :=
  Item ["1"; ""; "AT"; "OK"; ""; ""; "PENDING"; ""; ""] "pending".

(** The same with a pattern that does not compile. *)
Definition bad_regex_line : item :=
  Item ["1"; ""; "AT"; "OK"; "("; ""; "PENDING"; ""; ""] "pending".

(** The cable is pulled: [write] raises. *)
Definition unplugged : attempt_env :=
  AttemptEnv (WriteFault "device disconnected") [] false.

(** The device stays silent and the operator presses Stop meanwhile. *)
Definition silent_then_stop : attempt_env := AttemptEnv LinkOk [] true.

(** ** More vocabulary: the loader *)

(** A test case as [normalize_row] hands it out: the ten fields of
    [JSON_FIELDS] and no other, with a boolean [negative], a float
    [wait_till] and integer [print_ahead_chars] and [retries]. *)
Definition normalized {F : Type} (t : gmap string (pyval F)) : Prop :=
  (∀ k, is_Some (t !! k) ↔ k ∈ JSON_FIELDS)
  ∧ (∃ b, t !! "negative" = Some (PBool b))
  ∧ (∃ f, t !! "wait_till" = Some (PFloat f))
  ∧ (∃ z, t !! "print_ahead_chars" = Some (PInt z))
  ∧ (∃ z, t !! "retries" = Some (PInt z)).

(** The command of a record is missing or is a string. *)
Definition command_is_text {F : Type} (row : pyval F) : Prop :=
  match row with
  | PDict r =>
      match r !! "command" with
      | None | Some (PStr _) => True
      | Some _ => False
      end
  | _ => True
  end.

(** ** More vocabulary: the engine *)

(** No pass of the wait loop meets a transport exception. *)
Definition fault_free (ps : list poll) : Prop :=
  Forall (λ p, ∀ m, answer p ≠ PollFault m) ps.

(** The command that a line puts on the wire. *)
Definition wire_text (r : item) : string :=
  newlines_to_blanks (cell 2 r) ++ CRLF.

(** The columns Iter, Cmd Name, Cmd, Expected and Regex of two lines agree. *)
Definition same_identity (r r' : item) : Prop :=
  ∀ i, (i < IDX_FOUND)%nat → values r' !! i = values r !! i.

(** [chr(10) in s] *)
Fixpoint has_newline (s : string) : bool :=
  match s with
  | EmptyString => false
  | String c s' => Ascii.eqb c "010"%char || has_newline s'
  end.

(** What [wrap_text] raises when it is handed something else than a string. *)
Definition NOT_A_STRING : string := "object has no attribute 'expandtabs'".

(** ** More vocabulary: the HTML report *)

(** [c.lower()] and [s.lower()], on ASCII *)
Definition ascii_lower (c : ascii) : ascii :=
  let n := nat_of_ascii c in
  if (65 <=? n)%nat && (n <=? 90)%nat then ascii_of_nat (n + 32) else c.

Fixpoint str_lower (s : string) : string :=
  match s with
  | EmptyString => EmptyString
  | String c s' => String (ascii_lower c) (str_lower s')
  end.

(** ["".join(l)] *)
Fixpoint str_concat (l : list string) : string :=
  match l with
  | [] => ""
  | s :: l' => s ++ str_concat l'
  end.

Definition DQUOTE : string := String "034" EmptyString.

(** The literal [head] of [_generate_html]. *)
Definition HTML_HEAD : string :=
  "
        <html><head><meta charset=" ++ DQUOTE ++
  "utf-8" ++ DQUOTE ++
  ">
        <style>
        body{font-family:Segoe UI,Arial,sans-serif;margin:20px;}
        table{border-collapse:collapse;width:100%;}
        th,td{border:1px solid #ccc;padding:8px;text-align:center;}
        th{background:#E5E7EB;}
        tr.pass{background:#BBF7D0;}
        tr.fail{background:#FCA5A5;}
        tr.error{background:#FDBA74;}
        tr.pending{background:#E5E7EB;}
        tr.running{background:#FEF08A;}
        </style></head><body>
        <h1>Test Results</h1>
        <table><tr>
        <th>Iter</th><th>Name</th><th>Cmd</th><th>Expected</th>
        <th>Regex</th><th>Found</th><th>Result</th>
        <th>Duration</th><th>Msg</th></tr>
        ".

Definition HTML_TAIL : string := "</table></body></html>".

Section Report.

(** [html.escape] *)
Context (html_escape : string → string).

(** One pass of the loop of [_generate_html]: [r[6]] raises on a row of
    fewer than seven cells. *)
Definition html_row (r : list string) : res string :=
  (do result <- get_cell IDX_RESULT r;
   let cls := str_lower result in
   Ok ("<tr class='" ++ cls ++ "'>"
       ++ str_concat ((λ x, "<td>" ++ html_escape x ++ "</td>") <$> r)
       ++ "</tr>" ++ String "010" EmptyString))%res.

Fixpoint rows_html (rows : list (list string)) : res string :=
  match rows with
  | [] => Ok ""
  | r :: rs =>
      (do h <- html_row r;
       do t <- rows_html rs;
       Ok (h ++ t))%res
  end.

(** [_generate_html(rows)] *)
Definition _generate_html (rows : list (list string)) : res string :=
  (do body <- rows_html rows; Ok (HTML_HEAD ++ body ++ HTML_TAIL))%res.

(** The text that [export_html] writes for a table, once a path is chosen. *)
Definition export_html (live_tree : list item) : res string :=
  _generate_html (values <$> live_tree).

End Report.

(** A line whose Found cell, Result cell and colour tag go together. *)
Definition classified (r : item) : Prop :=
  wf_item r
  ∧ ((cell IDX_FOUND r = "" ∧ cell IDX_RESULT r = "PENDING" ∧ tags r = "pending")
     ∨ (cell IDX_FOUND r = "YES" ∧ cell IDX_RESULT r = "PASS" ∧ tags r = "pass")
     ∨ (cell IDX_FOUND r = "NO" ∧ cell IDX_RESULT r = "FAIL" ∧ tags r = "fail")
     ∨ (cell IDX_FOUND r = "?" ∧ cell IDX_RESULT r = "ERROR" ∧ tags r = "error")).

(** ** More examples *)

(** A stand-in for [html.escape], right on texts without markup characters. *)
Definition demo_html_escape (s : string) : string := s.

(** A scheduled line with no expectation at all. *)
Definition no_expectation_line : item :=
  Item ["1"; ""; "AT"; ""; ""; ""; "PENDING"; ""; ""] "pending".

(** [at_line] after a run in which the device answered OK at once. *)
Definition at_line_passed : item :=
  Item ["1"; ""; "AT"; "OK"; ""; "YES"; "PASS"; "0.05"; "OK"] "pass".

(** [at_line] after a run in which the device stayed silent. *)
Definition at_line_failed : item :=
  Item ["1"; ""; "AT"; "OK"; ""; "NO"; "FAIL"; "3.00"; ""] "fail".

(** A record with a field that the loader does not know. *)
Definition coloured_record : gmap string (pyval Z) :=
  <["colour" := PStr "red"]> (<["command" := PStr "AT"]> ∅).

(** A record whose command is a number. *)
Definition numeric_command : pyval Z := PDict (<["command" := PInt 7]> ∅).

(** A test case whose command has a line break after wrapping. *)
Definition two_line_wrap (text : string) (width : nat) : list string :=
  ["AT+CMD"; "=1"].

(** ** More vocabulary: the passes of the wait loop *)

Section Passes.

Context (re_error : string → option string).
Context (re_find : string → string → bool).

(** What pass [k] of the wait loop (counted from 1) comes to, when the
    loop was entered with buffer [buf]: the exception of [in_waiting] or
    [read], or else the two tests on all that was read so far. *)
Definition pass_finds (expected regex buf : string) (ps : list poll) (k : nat)
  : res bool :=
  match answer (nth (k - 1) ps idle_poll) with
  | PollFault msg => Raise msg
  | _ => check_buffer re_error re_find expected regex (buf ++ drained k ps)
  end.

End Passes.

(** * Properties *)

(** ** Strings *)

Lemma append_nil_l (s : string) : "" ++ s = s.
Proof. reflexivity. Qed.

Lemma append_cons (c : ascii) (s1 s2 : string) :
  String c s1 ++ s2 = String c (s1 ++ s2).
Proof. reflexivity. Qed.

Lemma append_nil_r (s : string) : s ++ "" = s.
Proof. induction s as [|c s IH]; [done|]. by rewrite append_cons, IH. Qed.

Lemma prefix_true_iff (sub s : string) :
  String.prefix sub s = true ↔ ∃ post, s = sub ++ post.
Proof.
  revert s. induction sub as [|a sub IH]; intros s.
  - split; [intros _; exists s; reflexivity | by destruct s].
  - destruct s as [|b s]; simpl.
    + split; [done | intros [post Hp]; rewrite append_cons in Hp; discriminate].
    + destruct (ascii_dec a b) as [->|Hne].
      * rewrite IH. split; intros [post Hp]; exists post.
        -- by rewrite append_cons, Hp.
        -- rewrite append_cons in Hp. by injection Hp.
      * split; [done | intros [post Hp]].
        rewrite append_cons in Hp. injection Hp as Hab _. congruence.
Qed.

Lemma contains_cons (sub : string) (c : ascii) (s : string) :
  contains sub (String c s) = String.prefix sub (String c s) || contains sub s.
Proof. reflexivity. Qed.

Lemma contains_true_iff (sub s : string) :
  contains sub s = true ↔ is_substring sub s.
Proof.
  unfold is_substring. induction s as [|c s IH].
  - change (contains sub "") with (String.prefix sub "" || false).
    rewrite orb_false_r, prefix_true_iff. split.
    + intros [post Hp]. exists "", post. by rewrite append_nil_l.
    + intros ([|a pre] & post & Hp); [by exists post|].
      rewrite append_cons in Hp. discriminate.
  - rewrite contains_cons, orb_true_iff, IH, prefix_true_iff. split.
    + intros [[post Hp]|(pre & post & Hp)].
      * exists "", post. by rewrite append_nil_l.
      * exists (String c pre), post. by rewrite append_cons, Hp.
    + intros ([|a pre] & post & Hp).
      * left. by exists post.
      * right. rewrite append_cons in Hp. injection Hp as _ Hp.
        by exists pre, post.
Qed.

Lemma nonempty_true_iff (s : string) : nonempty s = true ↔ s ≠ "".
Proof. by destruct s. Qed.

Lemma contains_empty_buffer (sub : string) :
  nonempty sub = true → contains sub "" = false.
Proof. by destruct sub. Qed.

(** ** The match decision *)

Section Matcher.

Context (re_error : string → option string).
Context (re_find : string → string → bool).

Abbreviation check := (check_buffer re_error re_find).
Abbreviation search := (re_search re_error re_find).

Lemma check_buffer_literal (expected regex buf : string) :
  expected ≠ "" → is_substring expected buf → check expected regex buf = Ok true.
Proof.
  intros Hne Hsub. unfold check_buffer.
  apply nonempty_true_iff in Hne. apply contains_true_iff in Hsub.
  by rewrite Hne, Hsub.
Qed.

Lemma literal_hit_iff (expected buf : string) :
  nonempty expected && contains expected buf = true ↔
  expected ≠ "" ∧ is_substring expected buf.
Proof. by rewrite andb_true_iff, nonempty_true_iff, contains_true_iff. Qed.

Lemma check_buffer_no_literal (expected regex buf : string) :
  nonempty expected && contains expected buf = false →
  check expected regex buf = if nonempty regex then search regex buf else Ok false.
Proof. intros Hno. unfold check_buffer. by rewrite Hno. Qed.

(** C1: the buffer matches iff the literal is set and occurs in it, or the
    pattern is set and [re.search] finds a match; the literal is tested
    first and a hit there decides without looking at the pattern (even one
    that does not compile); with neither set the buffer never matches. *)
Theorem check_buffer_is_literal_or_regex (expected regex buf : string) :
  (check expected regex buf = Ok true ↔
     (expected ≠ "" ∧ is_substring expected buf) ∨
     (regex ≠ "" ∧ search regex buf = Ok true))
  ∧ (nonempty expected && contains expected buf = true →
     ∀ regex', check expected regex' buf = Ok true)
  ∧ check "" "" buf = Ok false.
Proof.
  split; [|split].
  - split.
    + intros Hc.
      destruct (nonempty expected && contains expected buf) eqn:Hlit.
      { left. by apply literal_hit_iff. }
      right. rewrite (check_buffer_no_literal _ _ _ Hlit) in Hc.
      destruct (nonempty regex) eqn:Hre; [|done].
      by apply nonempty_true_iff in Hre.
    + intros [[Hne Hsub]|[Hne Hs]]; [by apply check_buffer_literal|].
      destruct (nonempty expected && contains expected buf) eqn:Hlit.
      { apply literal_hit_iff in Hlit as [??]. by apply check_buffer_literal. }
      rewrite (check_buffer_no_literal _ _ _ Hlit).
      apply nonempty_true_iff in Hne. by rewrite Hne.
  - intros Hlit regex'. unfold check_buffer. by rewrite Hlit.
  - done.
Qed.

End Matcher.

(** ** The status markers on a nine-cell line *)

Lemma set_cell_in_range (i : nat) (v : string) (vals : list string) :
  (i < List.length vals)%nat → set_cell i v vals = Ok (<[i := v]> vals).
Proof. intros Hi. unfold set_cell. by rewrite decide_True. Qed.

Lemma set_cell_length (i : nat) (v : string) (vals vals' : list string) :
  set_cell i v vals = Ok vals' → List.length vals' = List.length vals.
Proof.
  unfold set_cell. case_decide; [|done]. intros [= <-]. apply length_insert.
Qed.

Lemma running_item_wf (it : item) : wf_item it → wf_item (running_item it).
Proof. unfold wf_item, running_item. simpl. by rewrite length_insert. Qed.

Lemma error_item_wf (it : item) (msg : string) :
  wf_item it → wf_item (error_item it msg).
Proof. unfold wf_item, error_item. simpl. by rewrite !length_insert. Qed.

Ltac nine_cells it H :=
  let vals := fresh "vals" in
  let tag := fresh "tag" in
  destruct it as [vals tag]; unfold wf_item in H; simpl in H;
  do 10 (destruct vals as [|? vals]; try discriminate H).

Section Markers.

Context (format_2f : Z → string).

Lemma mark_running_wf (it : item) :
  wf_item it → _mark_running it = Ok (running_item it).
Proof. intros H. nine_cells it H. reflexivity. Qed.

Lemma mark_error_wf (it : item) (msg : string) :
  wf_item it → _mark_error it msg = Ok (error_item it msg).
Proof. intros H. nine_cells it H. reflexivity. Qed.

Lemma mark_pass_wf (it : item) (snippet msg : string) (dur : Z) :
  wf_item it → _mark_pass format_2f it snippet msg dur = Ok (pass_item format_2f it snippet msg dur).
Proof. intros H. nine_cells it H. reflexivity. Qed.

Lemma mark_fail_wf (it : item) (snippet msg : string) (dur : Z) :
  wf_item it → _mark_fail format_2f it snippet msg dur = Ok (fail_item format_2f it snippet msg dur).
Proof. intros H. nine_cells it H. reflexivity. Qed.

Lemma pass_item_wf (it : item) (snippet msg : string) (dur : Z) :
  wf_item it → wf_item (pass_item format_2f it snippet msg dur).
Proof. unfold wf_item, pass_item. simpl. by rewrite !length_insert. Qed.

Lemma fail_item_wf (it : item) (snippet msg : string) (dur : Z) :
  wf_item it → wf_item (fail_item format_2f it snippet msg dur).
Proof. unfold wf_item, fail_item. simpl. by rewrite !length_insert. Qed.

(** C10: [_mark_error] rewrites the cells Found ("?"), Result ("ERROR") and
    Snippet (the message) and no other cell, so the Duration cell keeps what
    it held (the blank of a scheduled line); [_mark_pass] and [_mark_fail]
    do write the Duration cell, with the [.2f] rendering of the duration. *)
Theorem mark_error_leaves_duration (it : item) (msg : string) :
  wf_item it →
  ∃ it', _mark_error it msg = Ok it'
    ∧ values it' !! IDX_FOUND = Some "?"
    ∧ values it' !! IDX_RESULT = Some "ERROR"
    ∧ values it' !! IDX_SNIPPET = Some msg
    ∧ (∀ i, i ≠ IDX_FOUND → i ≠ IDX_RESULT → i ≠ IDX_SNIPPET →
            values it' !! i = values it !! i)
    ∧ values it' !! IDX_DURATION = values it !! IDX_DURATION
    ∧ (∀ snippet m dur,
         ∃ p f, _mark_pass format_2f it snippet m dur = Ok p
              ∧ _mark_fail format_2f it snippet m dur = Ok f
              ∧ values p !! IDX_DURATION = Some (format_2f dur)
              ∧ values f !! IDX_DURATION = Some (format_2f dur)).
Proof.
  intros H. exists (error_item it msg).
  split; [by apply mark_error_wf|].
  assert (Hframe : ∀ i, i ≠ IDX_FOUND → i ≠ IDX_RESULT → i ≠ IDX_SNIPPET →
            values (error_item it msg) !! i = values it !! i).
  { intros i H5 H6 H8. unfold error_item. simpl.
    by rewrite !list_lookup_insert_ne. }
  repeat split.
  - nine_cells it H. reflexivity.
  - nine_cells it H. reflexivity.
  - nine_cells it H. reflexivity.
  - exact Hframe.
  - by apply Hframe.
  - intros snippet m dur.
    exists (pass_item format_2f it snippet m dur), (fail_item format_2f it snippet m dur).
    rewrite mark_pass_wf, mark_fail_wf by done.
    nine_cells it H. by repeat split.
Qed.

End Markers.

(** ** The wait loop *)

Section WaitLoop.

Context (re_error : string → option string).
Context (re_find : string → string → bool).

Abbreviation wait := (wait_loop re_error re_find).

Lemma wait_loop_unfold (fuel : nat) (expected regex buf : string) (elapsed : Z)
    (ps : list poll) :
  elapsed < timeout →
  wait (S fuel) expected regex buf elapsed ps =
    let p := List.hd idle_poll ps in
    let buf' := buf ++ poll_text (answer p) in
    let elapsed' := elapsed + POLL_PERIOD + Z.of_nat (lag p) in
    match answer p with
    | PollFault msg => Some (Raise msg)
    | _ =>
        match check_buffer re_error re_find expected regex buf' with
        | Raise e => Some (Raise e)
        | Ok true => Some (Ok (true, buf', elapsed'))
        | Ok false => wait fuel expected regex buf' elapsed' (List.tl ps)
        end
    end.
Proof.
  intros Hlt. simpl. rewrite decide_True by done. by destruct (answer _).
Qed.

Lemma wait_loop_expired (fuel : nat) (expected regex buf : string) (elapsed : Z)
    (ps : list poll) :
  timeout ≤ elapsed →
  wait fuel expected regex buf elapsed ps = Some (Ok (false, buf, elapsed)).
Proof. intros Hge. destruct fuel; simpl; by rewrite decide_False by lia. Qed.

(** The loop ends by itself: a budget that covers what is left of the
    window, at one pass per 50 ms, is never used up. *)
Lemma wait_loop_total (fuel : nat) (expected regex buf : string) (elapsed : Z)
    (ps : list poll) :
  timeout - elapsed ≤ POLL_PERIOD * Z.of_nat fuel →
  is_Some (wait fuel expected regex buf elapsed ps).
Proof.
  revert buf elapsed ps. induction fuel as [|fuel IH]; intros buf elapsed ps Hfuel.
  - rewrite wait_loop_expired; [done|]. unfold POLL_PERIOD in Hfuel. lia.
  - destruct (decide (elapsed < timeout)) as [Hlt|Hge].
    + rewrite wait_loop_unfold by done. cbv zeta.
      destruct (answer _); [| done |];
        (destruct (check_buffer _ _ _ _ _) as [[|]|]; [done | | done];
         apply IH; unfold POLL_PERIOD in *; lia).
    + rewrite wait_loop_expired by lia. done.
Qed.

Lemma wait_loop_budget (expected regex : string) (ps : list poll) :
  is_Some (wait POLL_BUDGET expected regex "" 0 ps).
Proof. apply wait_loop_total. unfold timeout, POLL_PERIOD, POLL_BUDGET. lia. Qed.

(** More fuel than needed changes nothing. *)
Lemma wait_loop_fuel_mono (fuel : nat) (expected regex buf : string)
    (elapsed : Z) (ps : list poll) r :
  wait fuel expected regex buf elapsed ps = Some r →
  wait (S fuel) expected regex buf elapsed ps = Some r.
Proof.
  revert buf elapsed ps. induction fuel as [|fuel IH]; intros buf elapsed ps.
  - destruct (decide (elapsed < timeout)) as [Hlt|Hge].
    + simpl. by rewrite decide_True by done.
    + by rewrite !wait_loop_expired by lia.
  - destruct (decide (elapsed < timeout)) as [Hlt|Hge].
    + rewrite (wait_loop_unfold (S fuel)), (wait_loop_unfold fuel) by done.
      cbv zeta. destruct (answer _); [| done |];
        (destruct (check_buffer _ _ _ _ _) as [[|]|]; [done | | done]; apply IH).
    + by rewrite !wait_loop_expired by lia.
Qed.

(** What the loop returns, if it returns: without a match the whole window
    has gone by; with clocks that never oversleep the duration is a
    multiple of 50 ms, at most the window; a match was seen in the final
    buffer. *)
Lemma wait_loop_result (fuel : nat) (expected regex buf : string) (elapsed : Z)
    (ps : list poll) (found : bool) (buf' : string) (dur : Z) :
  wait fuel expected regex buf elapsed ps = Some (Ok (found, buf', dur)) →
  elapsed ≤ dur
  ∧ (found = false → timeout ≤ dur)
  ∧ (found = true → elapsed + POLL_PERIOD ≤ dur
                     ∧ check_buffer re_error re_find expected regex buf' = Ok true)
  ∧ (punctual ps → elapsed ≤ timeout → (POLL_PERIOD | elapsed) →
     dur ≤ timeout ∧ (POLL_PERIOD | dur)).
Proof.
  revert buf elapsed ps.
  induction fuel as [|fuel IH]; intros buf elapsed ps Hw.
  - simpl in Hw. case_decide; [done|]. injection Hw as <- <- <-.
    repeat split; try done; lia.
  - destruct (decide (elapsed < timeout)) as [Hlt|Hge].
    2:{ rewrite wait_loop_expired in Hw by lia. injection Hw as <- <- <-.
        repeat split; try done; lia. }
    rewrite wait_loop_unfold in Hw by done. cbv zeta in Hw.
    set (p := List.hd idle_poll ps) in *.
    assert (Hlag : punctual ps → lag p = 0%nat).
    { intros Hp. subst p. destruct ps as [|q ps]; [done|].
      by apply Forall_cons in Hp as [? _]. }
    assert (Htl : punctual ps → punctual (List.tl ps)).
    { intros Hp. destruct ps as [|q ps]; [done|].
      by apply Forall_cons in Hp as [_ ?]. }
    assert (Hm :
      match check_buffer re_error re_find expected regex (buf ++ poll_text (answer p)) with
      | Raise e => Some (Raise e)
      | Ok true => Some (Ok (true, buf ++ poll_text (answer p),
                             elapsed + POLL_PERIOD + Z.of_nat (lag p)))
      | Ok false => wait fuel expected regex (buf ++ poll_text (answer p))
                      (elapsed + POLL_PERIOD + Z.of_nat (lag p)) (List.tl ps)
      end = Some (Ok (found, buf', dur))).
    { by destruct (answer p). }
    clear Hw. revert Hm.
    destruct (check_buffer re_error re_find expected regex
                (buf ++ poll_text (answer p))) as [[|]|] eqn:Hc;
      intros Hm; [| |done].
    + injection Hm as <- <- <-. unfold POLL_PERIOD, timeout in *.
      split; [lia|]. split; [done|]. split; [intros _; split; [lia | done]|].
      intros Hp _ [k Hk]. rewrite (Hlag Hp).
      split; [lia | exists (k + 1); lia].
    + apply IH in Hm as (H1 & H2 & H3 & H4). unfold POLL_PERIOD, timeout in *.
      split; [lia|]. split; [done|]. split.
      * intros Hf. destruct (H3 Hf) as [? ?]. split; [lia | done].
      * intros Hp Hle [k Hk]. rewrite (Hlag Hp) in H4.
        apply H4; [by apply Htl | lia | exists (k + 1); lia].
Qed.

End WaitLoop.

(** ** One line of the run *)

Section Runner.

Context (re_error : string → option string).
Context (re_find : string → string → bool).
Context (format_2f : Z → string).

Abbreviation one := (run_one re_error re_find format_2f).
Abbreviation worker := (_run_worker re_error re_find format_2f).

Lemma attempt_outcome_total (expected regex : string) (e : attempt_env) :
  is_Some (attempt_outcome re_error re_find expected regex e).
Proof.
  unfold attempt_outcome. destruct (transmit (link e)); [|done].
  destruct (wait_loop_budget re_error re_find expected regex (polls e)) as [w ->].
  done.
Qed.

Lemma run_one_wf (it : item) (e : attempt_env) :
  wf_item it →
  one it e =
    o ← attempt_outcome re_error re_find (cell 3 it) (cell 4 it) e;
    Some (settle format_2f (running_item it) o,
          sent_by (newlines_to_blanks (cell 2 it)) (link e), None).
Proof.
  intros H. nine_cells it H.
  unfold run_one, attempt_outcome, attempt_body, cell.
  generalize (wait_loop re_error re_find POLL_BUDGET). intros W. simpl.
  destruct (transmit (link e)); [|done].
  destruct (W _ _ _ _ _) as [[[[[|] buf] dur]|m]|]; reflexivity.
Qed.

Lemma settle_wf (it : item) (o : outcome) : wf_item it → wf_item (settle format_2f it o).
Proof.
  intros H. destruct o; simpl;
    [by apply pass_item_wf | by apply fail_item_wf | by apply error_item_wf].
Qed.

Lemma settle_terminal (it : item) (o : outcome) :
  wf_item it → terminal (settle format_2f it o).
Proof.
  intros H. nine_cells it H. unfold terminal, verdict.
  destruct o; simpl; auto.
Qed.

(** The Snippet cell of a PASS or FAIL line: the first 80 characters of
    the stripped buffer, since the worker passes no message. *)
Lemma snippet_is_trimmed_buffer (it : item) (buf : string) (dur : Z) :
  wf_item it →
  values (settle format_2f it (Passed buf dur)) !! IDX_SNIPPET
    = Some (str_take 80 (strip buf))
  ∧ values (settle format_2f it (Failed buf dur)) !! IDX_SNIPPET
    = Some (str_take 80 (strip buf)).
Proof. intros H. nine_cells it H. by split. Qed.

Lemma run_worker_stopped (children : list item) (envs : list attempt_env) :
  worker children envs true = Some (RunState children [] None).
Proof. by destruct children. Qed.

Lemma run_worker_cons (it : item) (rest : list item) (envs : list attempt_env) :
  wf_item it →
  worker (it :: rest) envs false =
    let e := List.hd quiet_env envs in
    o ← attempt_outcome re_error re_find (cell 3 it) (cell 4 it) e;
    st ← worker rest (List.tl envs) (stop_pressed e);
    Some (RunState (settle format_2f (running_item it) o :: tree st)
            (sent_by (newlines_to_blanks (cell 2 it)) (link e) ++ sent st)%list
            (escaped st)).
Proof.
  intros H. cbn [_run_worker]. rewrite run_one_wf by done. cbv zeta.
  by destruct (attempt_outcome re_error re_find _ _ _).
Qed.

(** The worker always comes to its end, no exception leaves its loop, and
    the table keeps its lines. *)
Lemma run_worker_total (children : list item) (envs : list attempt_env)
    (stop_flag : bool) :
  Forall wf_item children →
  ∃ st, worker children envs stop_flag = Some st
      ∧ escaped st = None
      ∧ List.length (tree st) = List.length children
      ∧ (List.length (sent st) ≤ List.length children)%nat.
Proof.
  intros Hwf. revert envs stop_flag.
  induction Hwf as [|it rest Hit Hrest IH]; intros envs stop_flag.
  - by exists (RunState [] [] None).
  - destruct stop_flag.
    { rewrite run_worker_stopped. eexists. repeat split; simpl; lia. }
    rewrite run_worker_cons by done. cbv zeta.
    destruct (attempt_outcome_total (cell 3 it) (cell 4 it)
                (List.hd quiet_env envs)) as [o ->].
    destruct (IH (List.tl envs) (stop_pressed (List.hd quiet_env envs)))
      as (st & -> & Hesc & Hlen & Hsent).
    eexists. split; [done|]. simpl. split; [done|]. split; [by rewrite Hlen|].
    rewrite length_app. destruct (link _); simpl; lia.
Qed.

End Runner.

(** ** Scheduling: what a line of the table knows of its test case *)

Section Scheduling.

Context {pyfloat : Type}.
Context (re_error : string → option string).
Context (re_find : string → string → bool).
Context (textwrap_wrap : string → nat → list string).
Context (format_2f : Z → string).
Context (tk_str : pyval pyfloat → string).

Abbreviation tcase := (gmap string (pyval pyfloat)).
Abbreviation pending := (pending_item textwrap_wrap tk_str).
Abbreviation schedule := (pending_rows textwrap_wrap tk_str).
Abbreviation run := (run_all re_error re_find textwrap_wrap format_2f tk_str).

Lemma pending_item_scheduled (it : nat) (t : tcase) (r : item) :
  pending it t = Ok r → scheduled r.
Proof.
  unfold pending_item. destruct (command_text _ _); [|done].
  intros [= <-]. by repeat split.
Qed.

Lemma pending_item_same_shown (it : nat) (t t' : tcase) :
  same_shown t t' → pending it t = pending it t'.
Proof.
  intros Hs. unfold pending_item, command_text, field_text.
  rewrite <- (Hs "command_name"), <- (Hs "command"), <- (Hs "expected"),
    <- (Hs "expected_regex") by (unfold shown_fields; repeat constructor).
  done.
Qed.

Lemma rows_of_iteration_scheduled (it : nat) (tests : list tcase) (rows : list item) :
  rows_of_iteration textwrap_wrap tk_str it tests = Ok rows →
  Forall scheduled rows ∧ List.length rows = List.length tests.
Proof.
  revert rows. induction tests as [|t ts IH]; intros rows; simpl.
  - by intros [= <-].
  - destruct (pending_item _ _ it t) as [r|] eqn:Hr; [|done]. simpl.
    destruct (rows_of_iteration _ _ it ts) as [rs|]; [|done]. simpl.
    intros [= <-]. destruct (IH rs eq_refl) as [Hf Hl]. split.
    + constructor; [by eapply pending_item_scheduled | done].
    + simpl. by rewrite Hl.
Qed.

Lemma rows_from_scheduled (it n : nat) (tests : list tcase) (rows : list item) :
  rows_from textwrap_wrap tk_str it n tests = Ok rows →
  Forall scheduled rows ∧ List.length rows = (n * List.length tests)%nat.
Proof.
  revert it rows. induction n as [|n IH]; intros it rows; simpl.
  - by intros [= <-].
  - destruct (rows_of_iteration _ _ it tests) as [a|] eqn:Ha; [|done]. simpl.
    destruct (rows_from _ _ (S it) n tests) as [b|] eqn:Hb; [|done]. simpl.
    intros [= <-].
    destruct (rows_of_iteration_scheduled _ _ _ Ha) as [Hfa Hla].
    destruct (IH _ _ Hb) as [Hfb Hlb]. split.
    + by apply Forall_app.
    + rewrite length_app. lia.
Qed.

Lemma pending_rows_scheduled (iters : nat) (tests : list tcase) (rows : list item) :
  schedule iters tests = Ok rows →
  Forall scheduled rows ∧ List.length rows = (iters * List.length tests)%nat.
Proof. apply rows_from_scheduled. Qed.

Lemma rows_of_iteration_same_shown (it : nat) (tests tests' : list tcase) :
  Forall2 same_shown tests tests' →
  rows_of_iteration textwrap_wrap tk_str it tests
  = rows_of_iteration textwrap_wrap tk_str it tests'.
Proof.
  induction 1 as [|t t' ts ts' Ht _ IH]; simpl; [done|].
  by rewrite (pending_item_same_shown it t t' Ht), IH.
Qed.

Lemma rows_from_same_shown (it n : nat) (tests tests' : list tcase) :
  Forall2 same_shown tests tests' →
  rows_from textwrap_wrap tk_str it n tests
  = rows_from textwrap_wrap tk_str it n tests'.
Proof.
  intros Hs. revert it. induction n as [|n IH]; intros it; simpl; [done|].
  by rewrite (rows_of_iteration_same_shown it tests tests' Hs), IH.
Qed.

(** A run reads nothing of a test case but its four shown fields. *)
Lemma run_all_same_shown (tests tests' : list tcase) (ser_open : bool)
    (iter_var : Z) (envs : list attempt_env) :
  Forall2 same_shown tests tests' →
  run tests ser_open iter_var envs = run tests' ser_open iter_var envs.
Proof.
  intros Hs. unfold run_all, pending_rows.
  rewrite (rows_from_same_shown _ _ tests tests' Hs).
  by destruct Hs.
Qed.

(** Overwriting a field that is not shown. *)
Lemma same_shown_insert (k : string) (v : pyval pyfloat) (t : tcase) :
  k ∉ shown_fields → same_shown t (<[k := v]> t).
Proof.
  intros Hk k' Hk'. rewrite lookup_insert_ne; [done|]. by intros ->.
Qed.

Lemma run_all_hidden_field (k : string) (f : tcase → pyval pyfloat)
    (tests : list tcase) (ser_open : bool) (iter_var : Z)
    (envs : list attempt_env) :
  k ∉ shown_fields →
  run ((λ t, <[k := f t]> t) <$> tests) ser_open iter_var envs
  = run tests ser_open iter_var envs.
Proof.
  intros Hk. symmetry. apply run_all_same_shown.
  induction tests as [|t ts IH]; constructor; [|done].
  by apply same_shown_insert.
Qed.

End Scheduling.

Lemma hidden_field (k : string) : k ∈ hidden_fields → k ∉ shown_fields.
Proof.
  unfold hidden_fields, shown_fields. rewrite !elem_of_cons, !elem_of_nil.
  intros Hk Hs. destruct_or!; simplify_eq.
Qed.

(** ** The wait window *)

Lemma append_assoc (a b c : string) : (a ++ b) ++ c = a ++ (b ++ c).
Proof. induction a as [|x a IH]; [done|]. by rewrite !append_cons, IH. Qed.

Lemma slept_nonneg (n : nat) (ps : list poll) : 0 ≤ slept n ps.
Proof.
  revert ps. induction n as [|n IH]; intros ps; simpl; [done|].
  specialize (IH (List.tl ps)). unfold POLL_PERIOD. lia.
Qed.

Lemma slept_punctual (n : nat) (ps : list poll) :
  punctual ps → slept n ps = POLL_PERIOD * Z.of_nat n.
Proof.
  revert ps. induction n as [|n IH]; intros ps Hp; simpl; [lia|].
  rewrite IH.
  - destruct ps as [|p ps]; simpl; [lia|].
    apply Forall_cons in Hp as [-> _]. lia.
  - destruct ps as [|p ps]; [done|]. by apply Forall_cons in Hp as [_ ?].
Qed.

Section Window.

Context {pyfloat : Type}.
Context (re_error : string → option string).
Context (re_find : string → string → bool).
Context (textwrap_wrap : string → nat → list string).
Context (format_2f : Z → string).
Context (tk_str : pyval pyfloat → string).

(** The buffer is what the passes read, one after the other, the duration
    is what they slept, and each pass starts inside the window. *)
Lemma wait_loop_accumulates (fuel : nat) (expected regex buf : string)
    (elapsed : Z) (ps : list poll) (found : bool) (buf' : string) (dur : Z) :
  wait_loop re_error re_find fuel expected regex buf elapsed ps
    = Some (Ok (found, buf', dur)) →
  ∃ n, (n ≤ fuel)%nat
     ∧ buf' = buf ++ drained n ps
     ∧ dur = elapsed + slept n ps
     ∧ (∀ k, (k < n)%nat → elapsed + slept k ps < timeout).
Proof.
  revert buf elapsed ps. induction fuel as [|fuel IH]; intros buf elapsed ps Hw.
  - simpl in Hw. case_decide; [done|]. injection Hw as _ <- <-.
    exists 0%nat. simpl. rewrite append_nil_r.
    split; [lia|]. split; [done|]. split; [lia|]. intros k Hk. lia.
  - destruct (decide (elapsed < timeout)) as [Hlt|Hge].
    2:{ rewrite wait_loop_expired in Hw by lia. injection Hw as _ <- <-.
        exists 0%nat. simpl. rewrite append_nil_r.
        split; [lia|]. split; [done|]. split; [lia|]. intros k Hk. lia. }
    rewrite wait_loop_unfold in Hw by done. cbv zeta in Hw.
    set (p := List.hd idle_poll ps) in *.
    assert (Hm :
      match check_buffer re_error re_find expected regex (buf ++ poll_text (answer p)) with
      | Raise e => Some (Raise e)
      | Ok true => Some (Ok (true, buf ++ poll_text (answer p),
                             elapsed + POLL_PERIOD + Z.of_nat (lag p)))
      | Ok false => wait_loop re_error re_find fuel expected regex
                      (buf ++ poll_text (answer p))
                      (elapsed + POLL_PERIOD + Z.of_nat (lag p)) (List.tl ps)
      end = Some (Ok (found, buf', dur))).
    { by destruct (answer p). }
    clear Hw. revert Hm.
    destruct (check_buffer re_error re_find expected regex
                (buf ++ poll_text (answer p))) as [[|]|];
      intros Hm; [| |done].
    + injection Hm as _ <- <-. exists 1%nat. simpl. fold p.
      rewrite append_nil_r. split; [lia|]. split; [done|]. split; [lia|].
      intros k Hk. assert (k = 0%nat) as -> by lia. simpl. lia.
    + apply IH in Hm as (n & Hn & -> & -> & Hin). exists (S n). simpl. fold p.
      split; [lia|]. split; [by rewrite append_assoc|]. split; [lia|].
      intros [|k] Hk; simpl; [lia|]. fold p.
      specialize (Hin k ltac:(lia)). lia.
Qed.

Lemma wait_loop_step (fuel : nat) (expected regex buf : string) (elapsed : Z)
    (ps : list poll) :
  elapsed < timeout →
  wait_loop re_error re_find (S fuel) expected regex buf elapsed ps =
    match pass_finds re_error re_find expected regex buf ps 1 with
    | Raise e => Some (Raise e)
    | Ok true => Some (Ok (true, buf ++ drained 1 ps, elapsed + slept 1 ps))
    | Ok false =>
        wait_loop re_error re_find fuel expected regex (buf ++ drained 1 ps)
          (elapsed + slept 1 ps) (List.tl ps)
    end.
Proof.
  intros Hlt. rewrite wait_loop_unfold by done. cbv zeta.
  unfold pass_finds. cbn [drained slept Nat.sub]. rewrite append_nil_r.
  replace (nth 0 ps idle_poll) with (List.hd idle_poll ps) by (by destruct ps).
  replace (elapsed + (POLL_PERIOD + Z.of_nat (lag (List.hd idle_poll ps)) + 0))
    with (elapsed + POLL_PERIOD + Z.of_nat (lag (List.hd idle_poll ps))) by lia.
  by destruct (answer (List.hd idle_poll ps)).
Qed.

Lemma drained_succ (buf : string) (k : nat) (ps : list poll) :
  buf ++ drained (S k) ps = (buf ++ drained 1 ps) ++ drained k (List.tl ps).
Proof. cbn [drained]. by rewrite append_nil_r, append_assoc. Qed.

Lemma slept_succ (elapsed : Z) (k : nat) (ps : list poll) :
  elapsed + slept (S k) ps = (elapsed + slept 1 ps) + slept k (List.tl ps).
Proof. cbn [slept]. lia. Qed.

Lemma pass_finds_succ (expected regex buf : string) (ps : list poll) (k : nat) :
  (1 ≤ k)%nat →
  pass_finds re_error re_find expected regex buf ps (S k)
  = pass_finds re_error re_find expected regex (buf ++ drained 1 ps) (List.tl ps) k.
Proof.
  intros Hk. unfold pass_finds. rewrite drained_succ.
  replace (nth (S k - 1) ps idle_poll) with (nth (k - 1) (List.tl ps) idle_poll);
    [done|].
  destruct k as [|k]; [lia|]. cbn [Nat.sub]. rewrite !Nat.sub_0_r.
  destruct ps as [|p ps]; [by destruct k | done].
Qed.

(** The course of the wait loop: it makes [n] passes, each started inside
    the window; none before the last finds a match or raises; the last one
    either finds the match, or raises, or finds none while the window has
    run out. *)
Lemma wait_loop_trace (fuel : nat) (expected regex buf : string) (elapsed : Z)
    (ps : list poll) (r : res (bool * string * Z)) :
  wait_loop re_error re_find fuel expected regex buf elapsed ps = Some r →
  elapsed < timeout →
  ∃ n, (1 ≤ n ≤ fuel)%nat
     ∧ (∀ k, (k < n)%nat → elapsed + slept k ps < timeout)
     ∧ (∀ k, (1 ≤ k < n)%nat →
            pass_finds re_error re_find expected regex buf ps k = Ok false)
     ∧ match pass_finds re_error re_find expected regex buf ps n with
       | Ok true => r = Ok (true, buf ++ drained n ps, elapsed + slept n ps)
       | Ok false =>
           timeout ≤ elapsed + slept n ps
           ∧ r = Ok (false, buf ++ drained n ps, elapsed + slept n ps)
       | Raise msg => r = Raise msg
       end.
Proof.
  revert buf elapsed ps.
  induction fuel as [|fuel IH]; intros buf elapsed ps Hw Hlt.
  { simpl in Hw. by rewrite decide_True in Hw. }
  rewrite wait_loop_step in Hw by done.
  assert (Hfirst : ∀ k, (k < 1)%nat → elapsed + slept k ps < timeout).
  { intros k Hk. assert (k = 0%nat) as -> by lia. simpl. lia. }
  destruct (pass_finds re_error re_find expected regex buf ps 1)
    as [[|]|e] eqn:H1.
  - injection Hw as <-. exists 1%nat. split; [lia|]. split; [done|].
    split; [intros k Hk; lia|]. by rewrite H1.
  - destruct (decide (elapsed + slept 1 ps < timeout)) as [Hlt'|Hge'].
    + destruct (IH _ _ _ Hw Hlt') as (n & Hn & Hin & Hq & Hlast).
      exists (S n). split; [lia|]. split; [|split].
      * intros [|k] Hk; [simpl; lia|]. rewrite slept_succ. apply Hin. lia.
      * intros [|[|k]] Hk; [lia | done |].
        rewrite pass_finds_succ by lia. apply Hq. lia.
      * rewrite pass_finds_succ by lia.
        rewrite (drained_succ buf n ps), (slept_succ elapsed n ps). exact Hlast.
    + rewrite wait_loop_expired in Hw by lia. injection Hw as <-.
      exists 1%nat. split; [lia|]. split; [done|].
      split; [intros k Hk; lia|]. rewrite H1. split; [lia | done].
  - injection Hw as <-. exists 1%nat. split; [lia|]. split; [done|].
    split; [intros k Hk; lia|]. by rewrite H1.
Qed.

(** C6: the wait window is the constant 3.0 s, whatever [wait_till] says.
    Overwriting [wait_till] in every test case leaves the run as it was.
    On a line whose command the port accepts, the attempt makes [n] passes
    of the wait loop, between 1 and 60, 50 ms apart (plus what a sleep
    oversleeps), each started inside the window and each appending what it
    reads to the buffer; no pass before the last finds a match or raises;
    and the last pass decides the line: PASS at the first match, ERROR at
    an exception, FAIL when it finds no match and the window has run out.
    Duration and Snippet are those of these [n] passes. *)
Theorem wait_window_is_three_seconds
    (tests : list (gmap string (pyval pyfloat)))
    (f : gmap string (pyval pyfloat) → pyval pyfloat)
    (ser_open : bool) (iter_var : Z) (envs : list attempt_env)
    (it : item) (e : attempt_env) :
  wf_item it →
  transmit (link e) = Ok tt →
  run_all re_error re_find textwrap_wrap format_2f tk_str
      ((λ t, <["wait_till" := f t]> t) <$> tests) ser_open iter_var envs
    = run_all re_error re_find textwrap_wrap format_2f tk_str
        tests ser_open iter_var envs
  ∧ timeout = 3000 ∧ POLL_PERIOD = 50
  ∧ ∃ n it',
      run_one re_error re_find format_2f it e
        = Some (it', sent_by (newlines_to_blanks (cell 2 it)) (link e), None)
      ∧ (1 ≤ n ≤ 60)%nat
      ∧ (∀ k, (k < n)%nat → slept k (polls e) < timeout)
      ∧ (∀ k, (1 ≤ k < n)%nat →
             pass_finds re_error re_find (cell 3 it) (cell 4 it) "" (polls e) k
             = Ok false)
      ∧ match pass_finds re_error re_find (cell 3 it) (cell 4 it) "" (polls e) n with
        | Ok true =>
            it' = pass_item format_2f (running_item it)
                    (str_take 80 (strip (drained n (polls e)))) ""
                    (slept n (polls e))
        | Ok false =>
            timeout ≤ slept n (polls e)
            ∧ it' = fail_item format_2f (running_item it)
                      (str_take 80 (strip (drained n (polls e)))) ""
                      (slept n (polls e))
        | Raise msg => it' = error_item (running_item it) msg
        end
      ∧ (punctual (polls e) →
         slept n (polls e) = POLL_PERIOD * Z.of_nat n
         ∧ slept n (polls e) ≤ timeout).
Proof.
  intros Hwf Hlink. split; [|split; [done|split; [done|]]].
  { apply run_all_hidden_field, hidden_field.
    unfold hidden_fields. repeat constructor. }
  destruct (wait_loop_budget re_error re_find (cell 3 it) (cell 4 it) (polls e))
    as [r Hr].
  destruct (wait_loop_trace _ _ _ _ _ _ r Hr) as (n & Hn & Hin & Hq & Hlast);
    [by unfold timeout|].
  rewrite run_one_wf by done. unfold attempt_outcome. rewrite Hlink, Hr.
  cbn [mbind option_bind]. exists n. eexists. split; [reflexivity|].
  split; [exact Hn|].
  split; [intros k Hk; specialize (Hin k Hk); lia|].
  split; [exact Hq|]. split.
  - rewrite append_nil_l, Z.add_0_l in Hlast.
    destruct (pass_finds _ _ _ _ _ _ _) as [[|]|msg].
    + by subst r.
    + destruct Hlast as [Hto ->]. by split.
    + by subst r.
  - intros Hpu. rewrite slept_punctual by done.
    split; [done|].
    assert (Hprev := Hin (n - 1)%nat ltac:(lia)).
    rewrite slept_punctual in Hprev by done.
    unfold timeout, POLL_PERIOD in *. lia.
Qed.

End Window.

(** ** Faults on the line *)

Lemma hd_never_stop (envs : list attempt_env) :
  link (List.hd quiet_env (never_stop envs)) = link (List.hd quiet_env envs)
  ∧ polls (List.hd quiet_env (never_stop envs)) = polls (List.hd quiet_env envs)
  ∧ stop_pressed (List.hd quiet_env (never_stop envs)) = false.
Proof. by destruct envs. Qed.

Lemma tl_never_stop (envs : list attempt_env) :
  List.tl (never_stop envs) = never_stop (List.tl envs).
Proof. by destruct envs. Qed.

Section Containment.

Context (re_error : string → option string).
Context (re_find : string → string → bool).
Context (format_2f : Z → string).

Abbreviation outcome_of := (attempt_outcome re_error re_find).
Abbreviation work := (_run_worker re_error re_find format_2f).

Lemma attempt_outcome_ext (expected regex : string) (e e' : attempt_env) :
  link e = link e' → polls e = polls e' →
  outcome_of expected regex e = outcome_of expected regex e'.
Proof. unfold attempt_outcome. by intros -> ->. Qed.

Lemma reads_fault_raises (expected regex buf : string) (elapsed : Z)
    (ps : list poll) (msg : string) :
  reads_fault re_error re_find expected regex buf elapsed ps msg →
  ∀ fuel, timeout - elapsed ≤ POLL_PERIOD * Z.of_nat fuel →
  wait_loop re_error re_find fuel expected regex buf elapsed ps = Some (Raise msg).
Proof.
  induction 1 as [buf elapsed p ps msg Hlt Hf
                 |buf elapsed p ps msg Hlt Hnf Hc _ IH]; intros fuel Hfuel.
  - destruct fuel as [|fuel]; [unfold POLL_PERIOD in *; lia|].
    rewrite wait_loop_unfold by done. simpl. by rewrite Hf.
  - destruct fuel as [|fuel]; [unfold POLL_PERIOD in *; lia|].
    rewrite wait_loop_unfold by done. simpl. rewrite Hc.
    destruct (answer p) as [|m|s] eqn:Ha;
      [| by destruct (Hnf m) |]; apply IH; unfold POLL_PERIOD in *; lia.
Qed.

Lemma transport_fault_outcome (expected regex : string) (e : attempt_env)
    (msg : string) :
  transport_fault re_error re_find expected regex e msg →
  outcome_of expected regex e = Some (Errored msg).
Proof.
  unfold attempt_outcome. intros [->|[->|[Hl Hr]]]; [done | done |].
  apply reads_fault_raises with (fuel := POLL_BUDGET) in Hr;
    [|unfold timeout, POLL_PERIOD, POLL_BUDGET; lia].
  destruct Hl as [-> | ->]; cbn [transmit]; rewrite Hr; reflexivity.
Qed.

(** C4: a transport exception raised by the write or inside the read loop
    ends the attempt at once: the line shows ERROR, "?" and the message of
    the exception; nothing escapes the loop of the worker; and the worker
    carries on with the next line, unless Stop was pressed meanwhile. *)
Theorem transport_fault_is_contained (it : item) (rest : list item)
    (e : attempt_env) (es : list attempt_env) (msg : string) :
  Forall wf_item (it :: rest) →
  transport_fault re_error re_find (cell 3 it) (cell 4 it) e msg →
  ∃ st line,
    work rest es (stop_pressed e) = Some st
    ∧ escaped st = None
    ∧ work (it :: rest) (e :: es) false
      = Some (RunState (line :: tree st)
                (sent_by (newlines_to_blanks (cell 2 it)) (link e) ++ sent st)%list
                None)
    ∧ line = error_item (running_item it) msg
    ∧ verdict line = Some "ERROR"
    ∧ values line !! IDX_FOUND = Some "?"
    ∧ values line !! IDX_SNIPPET = Some msg
    ∧ values line !! IDX_DURATION = values it !! IDX_DURATION.
Proof.
  intros Hwf Hfault. apply Forall_cons in Hwf as [Hit Hrest].
  destruct (run_worker_total re_error re_find format_2f rest es (stop_pressed e) Hrest)
    as (st & Hst & Hesc & _).
  exists st, (error_item (running_item it) msg).
  split; [done|]. split; [done|]. split.
  { rewrite run_worker_cons by done. cbv zeta. cbn [List.hd List.tl].
    rewrite (transport_fault_outcome _ _ _ _ Hfault). cbn [mbind option_bind].
    rewrite Hst. cbn [mbind option_bind]. by rewrite Hesc. }
  split; [done|]. nine_cells it Hit. by repeat split.
Qed.

(** Without a fault nothing escapes either: every line that is visited
    ends in a terminal state and the worker reaches the end of its loop. *)
Lemma no_exception_escapes (children : list item) (envs : list attempt_env)
    (stop_flag : bool) :
  Forall wf_item children →
  ∃ st, work children envs stop_flag = Some st ∧ escaped st = None.
Proof.
  intros Hwf.
  destruct (run_worker_total re_error re_find format_2f children envs stop_flag Hwf)
    as (st & Hst & Hesc & _).
  by exists st.
Qed.

End Containment.

(** ** The Stop button *)

Lemma nth_tl (j : nat) (envs : list attempt_env) :
  nth (S j) envs quiet_env = nth j (List.tl envs) quiet_env.
Proof. destruct envs; [by destruct j | done]. Qed.

Lemma nth_hd (envs : list attempt_env) :
  nth 0 envs quiet_env = List.hd quiet_env envs.
Proof. by destruct envs. Qed.

Section Stop.

Context (re_error : string → option string).
Context (re_find : string → string → bool).
Context (format_2f : Z → string).

Abbreviation wrk := (_run_worker re_error re_find format_2f).

Lemma stop_first_pressed_tl (k : nat) (envs : list attempt_env) :
  stop_first_pressed_at (S k) envs →
  stop_pressed (List.hd quiet_env envs) = false
  ∧ stop_first_pressed_at k (List.tl envs).
Proof.
  intros [Hbefore Hat]. split; [|split].
  - rewrite <- nth_hd. apply Hbefore. lia.
  - intros j Hj. rewrite <- nth_tl. apply Hbefore. lia.
  - by rewrite <- nth_tl.
Qed.

Lemma run_worker_stop_after (rows : list item) (envs : list attempt_env) (k : nat) :
  Forall wf_item rows →
  (k < List.length rows)%nat →
  stop_first_pressed_at k envs →
  ∃ st st',
    wrk rows envs false = Some st
    ∧ escaped st = None
    ∧ Forall terminal (take (S k) (tree st))
    ∧ List.length (take (S k) (tree st)) = S k
    ∧ drop (S k) (tree st) = drop (S k) rows
    ∧ wrk rows (never_stop envs) false = Some st'
    ∧ take (S k) (tree st) = take (S k) (tree st').
Proof.
  intros Hwf. revert envs k.
  induction Hwf as [|it rest Hit Hrest IH]; intros envs k Hk Hstop;
    [simpl in Hk; lia|].
  rewrite !run_worker_cons by done. cbv zeta.
  destruct (hd_never_stop envs) as (Hl & Hp & Hs). rewrite Hs.
  rewrite (attempt_outcome_ext re_error re_find _ _ _ _ Hl Hp).
  destruct (attempt_outcome_total re_error re_find (cell 3 it) (cell 4 it)
              (List.hd quiet_env envs)) as [o ->].
  cbn [mbind option_bind]. rewrite tl_never_stop.
  assert (Hterm : terminal (settle format_2f (running_item it) o)).
  { by apply settle_terminal, running_item_wf. }
  destruct (run_worker_total re_error re_find format_2f rest
              (never_stop (List.tl envs)) false Hrest) as (st' & Hst' & _).
  destruct k as [|k].
  - destruct Hstop as [_ Hat]. rewrite nth_hd in Hat. rewrite Hat.
    rewrite run_worker_stopped, Hst'. cbn [mbind option_bind].
    eexists _, _. split; [done|]. cbn [tree escaped take drop List.length].
    split; [done|]. split; [by constructor|]. by rewrite !take_0, !drop_0.
  - apply stop_first_pressed_tl in Hstop as [Hhd Htl]. rewrite Hhd.
    simpl in Hk.
    destruct (IH (List.tl envs) k ltac:(lia) Htl)
      as (st & st'' & Hst & Hesc & Hall & Hlen & Hdrop & Hst'' & Htake).
    rewrite Hst, Hst''. cbn [mbind option_bind].
    eexists _, _. split; [done|]. cbn [tree escaped take drop List.length].
    split; [done|]. split; [by constructor|]. split; [by rewrite Hlen|].
    split; [done|]. split; [done|]. by rewrite Htake.
Qed.

(** C8: the flag is read only at the head of the loop, before a line is
    started.  If Stop is first pressed after line [i] (counted from 1) was
    started and before the next check, the run ends with exactly [i]
    terminal lines, every later line still PENDING, and nothing escaping;
    the [i] lines that ran end exactly as in a run where Stop is never
    pressed, so no attempt is cut short. *)
Theorem stop_takes_effect_between_attempts (rows : list item)
    (envs : list attempt_env) (i : nat) :
  Forall scheduled rows →
  (1 ≤ i ≤ List.length rows)%nat →
  stop_first_pressed_at (i - 1) envs →
  ∃ st st',
    wrk rows envs false = Some st
    ∧ escaped st = None
    ∧ List.length (tree st) = List.length rows
    ∧ Forall terminal (take i (tree st))
    ∧ List.length (take i (tree st)) = i
    ∧ Forall (λ r, verdict r = Some "PENDING") (drop i (tree st))
    ∧ wrk rows (never_stop envs) false = Some st'
    ∧ take i (tree st) = take i (tree st').
Proof.
  intros Hsched [Hi1 Hi2] Hstop.
  assert (Hwf : Forall wf_item rows).
  { eapply Forall_impl; [exact Hsched|]. by intros r [? _]. }
  destruct (run_worker_stop_after rows envs (i - 1) Hwf ltac:(lia) Hstop)
    as (st & st' & Hst & Hesc & Hterm & Hlen & Hdrop & Hst' & Htake).
  replace (S (i - 1)) with i in * by lia.
  exists st, st'. split; [done|]. split; [done|]. split.
  { destruct (run_worker_total re_error re_find format_2f rows envs false Hwf)
      as (st0 & Hst0 & _ & Hl & _).
    rewrite Hst in Hst0. by injection Hst0 as ->. }
  split; [done|]. split; [done|]. split; [|done].
  rewrite Hdrop. apply Forall_drop.
  eapply Forall_impl; [exact Hsched|]. by intros r (_ & ? & _).
Qed.

End Stop.

(** ** A pattern that does not compile *)

Section LazyPattern.

Context (re_error : string → option string).
Context (re_find : string → string → bool).
Context (format_2f : Z → string).

Lemma verdict_settle (it : item) (o : outcome) :
  wf_item it → verdict (settle format_2f it o) = Some (outcome_text o).
Proof. intros H. nine_cells it H. by destruct o. Qed.

Lemma attempt_outcome_invalid_regex (expected regex msg : string) (e : attempt_env) :
  regex ≠ "" → re_error regex = Some msg →
  ∃ o, attempt_outcome re_error re_find expected regex e = Some o
     ∧ outcome_text o = if first_poll_hit expected e then "PASS" else "ERROR".
Proof.
  intros Hne Herr. apply nonempty_true_iff in Hne.
  unfold attempt_outcome, first_poll_hit.
  destruct (transmit (link e)) as [[]|m]; [|by eexists].
  change POLL_BUDGET with (S 59).
  rewrite wait_loop_unfold by (by unfold timeout). cbv zeta.
  rewrite append_nil_l. unfold check_buffer, re_search.
  destruct (answer (List.hd idle_poll (polls e))) as [|m|s];
    [| by eexists |];
    (destruct (nonempty expected && contains expected _);
     [by eexists | rewrite Hne, Herr; by eexists]).
Qed.

(** C5, as the code has it: with a pattern that is set and does not
    compile the line never ends in FAIL; it ends in ERROR, except when the
    line answers and the first pass of the wait loop already finds the
    literal, for then the pattern is never compiled and the line ends in
    PASS. *)
Theorem invalid_regex_never_fails (it : item) (e : attempt_env) (msg : string) :
  wf_item it →
  cell 4 it ≠ "" →
  re_error (cell 4 it) = Some msg →
  ∃ it' log,
    run_one re_error re_find format_2f it e = Some (it', log, None)
    ∧ verdict it' = Some (if first_poll_hit (cell 3 it) e then "PASS" else "ERROR")
    ∧ verdict it' ≠ Some "FAIL".
Proof.
  intros Hwf Hne Herr. rewrite run_one_wf by done.
  destruct (attempt_outcome_invalid_regex (cell 3 it) (cell 4 it) msg e Hne Herr)
    as (o & -> & Ho).
  cbn [mbind option_bind]. eexists _, _. split; [done|].
  rewrite verdict_settle by (by apply running_item_wf). rewrite Ho.
  split; [done|]. by destruct (first_poll_hit _ _).
Qed.

End LazyPattern.

(** ** One attempt per line *)

Section SingleAttempt.

Context {pyfloat : Type}.
Context (re_error : string → option string).
Context (re_find : string → string → bool).
Context (textwrap_wrap : string → nat → list string).
Context (format_2f : Z → string).
Context (tk_str : pyval pyfloat → string).

(** C3, as the code has it: a line is attempted exactly once.  Whatever
    the outcome of that attempt (FAIL and ERROR included) the line records
    it, at most one command went out for it, and the worker moves on to
    the next line and the next stretch of the outside world; the [retries]
    field of the test cases has no effect on a run. *)
Theorem each_line_is_attempted_once (it : item) (rest : list item)
    (envs : list attempt_env)
    (tests : list (gmap string (pyval pyfloat)))
    (f : gmap string (pyval pyfloat) → pyval pyfloat)
    (ser_open : bool) (iter_var : Z) :
  wf_item it →
  (∃ o,
     attempt_outcome re_error re_find (cell 3 it) (cell 4 it)
       (List.hd quiet_env envs) = Some o
     ∧ _run_worker re_error re_find format_2f (it :: rest) envs false
       = (st ← _run_worker re_error re_find format_2f rest (List.tl envs)
                  (stop_pressed (List.hd quiet_env envs));
          Some (RunState (settle format_2f (running_item it) o :: tree st)
                  (sent_by (newlines_to_blanks (cell 2 it))
                     (link (List.hd quiet_env envs)) ++ sent st)%list
                  (escaped st)))
     ∧ verdict (settle format_2f (running_item it) o) = Some (outcome_text o)
     ∧ (List.length (sent_by (newlines_to_blanks (cell 2 it))
                       (link (List.hd quiet_env envs))) ≤ 1)%nat)
  ∧ run_all re_error re_find textwrap_wrap format_2f tk_str
      ((λ t, <["retries" := f t]> t) <$> tests) ser_open iter_var envs
    = run_all re_error re_find textwrap_wrap format_2f tk_str
        tests ser_open iter_var envs.
Proof.
  intros Hwf. split.
  - destruct (attempt_outcome_total re_error re_find (cell 3 it) (cell 4 it)
                (List.hd quiet_env envs)) as [o Ho].
    exists o. split; [done|]. split.
    { rewrite run_worker_cons by done. cbv zeta. by rewrite Ho. }
    split; [by apply verdict_settle, running_item_wf|].
    destruct (link _); simpl; lia.
  - apply run_all_hidden_field, hidden_field.
    unfold hidden_fields. repeat constructor.
Qed.

End SingleAttempt.

(** ** The engine at work on examples *)

(** C2, at a failing input: the test case asks for the inverted polarity
    and the device answers OK, so the literal is found; the line is
    marked PASS all the same, for [_run_worker] sets [negative = False]
    whatever the test case says. *)
Theorem negative_flag_is_not_read :
  negative_case !! "negative" = Some (PBool true)
  ∧ demo_run_all [negative_case] true 1 [echo_ok]
    = Some (Ran (RunState
        [Item ["1"; ""; "AT"; "OK"; ""; "YES"; "PASS"; "0.05"; "OK"] "pass"]
        ["AT" ++ CRLF] None)).
Proof. split; by vm_compute. Qed.

(** C9, at a failing input: the test case carries the message
    "Modem ready"; the Snippet cell shows the trimmed buffer instead, for
    [_run_worker] sets [msg = ""] whatever the test case says. *)
Theorem message_override_is_not_read :
  message_case !! "message" = Some (PStr "Modem ready")
  ∧ demo_run_all [message_case] true 1 [echo_ok]
    = Some (Ran (RunState
        [Item ["1"; ""; "AT"; "OK"; ""; "YES"; "PASS"; "0.05"; "OK"] "pass"]
        ["AT" ++ CRLF] None)).
Proof. split; by vm_compute. Qed.

(** C5 fails as stated: the pattern does not compile, yet the line ends in
    PASS, because the literal is found before the pattern is looked at. *)
Lemma invalid_regex_can_pass :
  bad_regex_case !! "expected_regex" = Some (PStr "(")
  ∧ demo_re_error "(" = Some "missing ), unterminated subpattern at position 0"
  ∧ demo_run_all [bad_regex_case] true 1 [echo_ok]
    = Some (Ran (RunState
        [Item ["1"; ""; "AT"; "OK"; "("; "YES"; "PASS"; "0.05"; "OK"] "pass"]
        ["AT" ++ CRLF] None)).
Proof. repeat split; by vm_compute. Qed.

(** C3 fails as stated: with [retries = 1], a silent first attempt and a
    device that would answer the second one, the policy makes two attempts
    and ends in PASS; the run makes one attempt and records FAIL. *)
Lemma retries_are_not_honoured : ¬ retries_honoured retry_case [silent; echo_ok].
Proof.
  intros H.
  destruct (H (RunState
      [Item ["1"; ""; "AT"; "OK"; ""; "NO"; "FAIL"; "3.00"; ""] "fail"]
      ["AT" ++ CRLF] None)) as (o & n & Hspec & Hv & Hn); [by vm_compute|].
  vm_compute in Hspec. injection Hspec as <- <-. discriminate Hn.
Qed.

(** ** The loader *)

Section LoaderFacts.

Context {pyfloat : Type}.
Context (float_of_int : Z → option pyfloat).
Context (float_of_str : string → option pyfloat).
Context (float_trunc : pyfloat → option Z).
Context (float_nonzero : pyfloat → bool).
Context (one_point_zero : pyfloat).

Abbreviation normalize :=
  (normalize_row float_of_int float_of_str float_trunc float_nonzero one_point_zero).
Abbreviation defaults := (DEFAULT_ROW one_point_zero).

Lemma copy_fields_lookup (ks : list string) (row out : gmap string (pyval pyfloat))
    (k : string) :
  copy_fields ks row out !! k =
    if decide (k ∈ ks) then
      match row !! k with Some v => Some v | None => out !! k end
    else out !! k.
Proof.
  revert out. induction ks as [|k0 ks IH]; intros out; cbn [copy_fields].
  - destruct (decide (k ∈ [])) as [Hin|_]; [by apply elem_of_nil in Hin | done].
  - rewrite IH.
    assert (Hout : k ≠ k0 →
              (match row !! k0 with
               | Some v => <[k0 := v]> out
               | None => out
               end) !! k = out !! k).
    { intros Hne. destruct (row !! k0); [by rewrite lookup_insert_ne|done]. }
    destruct (decide (k ∈ ks)) as [Hin|Hnin];
      destruct (decide (k ∈ k0 :: ks)) as [Hin'|Hnin'].
    + destruct (row !! k) eqn:Hrk; [done|].
      destruct (decide (k = k0)) as [<-|Hne]; [|by apply Hout].
      by rewrite Hrk.
    + destruct Hnin'. by apply list_elem_of_further.
    + apply elem_of_cons in Hin' as [->|?]; [|done].
      destruct (row !! k0); [by rewrite lookup_insert_eq | done].
    + apply Hout. intros ->. apply Hnin', list_elem_of_here.
Qed.

Lemma copy_fields_json (row : gmap string (pyval pyfloat)) (k : string) :
  k ∈ JSON_FIELDS →
  copy_fields JSON_FIELDS row defaults !! k =
    match row !! k with Some v => Some v | None => defaults !! k end.
Proof. intros Hk. by rewrite copy_fields_lookup, decide_True. Qed.

(** What [normalize_row] leaves in each field of a JSON object. *)
Lemma normalize_row_fields (row : gmap string (pyval pyfloat)) :
  normalize (PDict row) !! "negative"
    = Some (PBool (py_bool float_nonzero (default (PBool false) (row !! "negative"))))
  ∧ normalize (PDict row) !! "wait_till"
    = Some (PFloat (safe_float float_of_int float_of_str
                      (default (PFloat one_point_zero) (row !! "wait_till"))
                      one_point_zero))
  ∧ normalize (PDict row) !! "print_ahead_chars"
    = Some (PInt (safe_int float_trunc
                    (default (PInt 40) (row !! "print_ahead_chars")) 0))
  ∧ normalize (PDict row) !! "retries"
    = Some (PInt (safe_int float_trunc (default (PInt 0) (row !! "retries")) 0))
  ∧ (∀ k, k ∈ ["command_name"; "command"; "expected"; "expected_regex";
               "print_after"; "message"] →
          normalize (PDict row) !! k = Some (default (PStr "") (row !! k)))
  ∧ (∀ k, k ∉ JSON_FIELDS → normalize (PDict row) !! k = None).
Proof.
  unfold normalize_row, dict_get, safe_int_default, safe_float_default.
  repeat split.
  - rewrite !(lookup_insert_ne _ _ "negative") by done.
    rewrite lookup_insert_eq, copy_fields_json
      by (unfold JSON_FIELDS; repeat constructor).
    by destruct (row !! "negative").
  - rewrite !(lookup_insert_ne _ _ "wait_till") by done.
    rewrite lookup_insert_eq, lookup_insert_ne by done.
    rewrite copy_fields_json by (unfold JSON_FIELDS; repeat constructor).
    by destruct (row !! "wait_till").
  - rewrite !(lookup_insert_ne _ _ "print_ahead_chars") by done.
    rewrite lookup_insert_eq, !lookup_insert_ne by done.
    rewrite copy_fields_json by (unfold JSON_FIELDS; repeat constructor).
    by destruct (row !! "print_ahead_chars").
  - rewrite lookup_insert_eq, !lookup_insert_ne by done.
    rewrite copy_fields_json by (unfold JSON_FIELDS; repeat constructor).
    by destruct (row !! "retries").
  - intros k Hk. rewrite !elem_of_cons, elem_of_nil in Hk.
    destruct_or!; subst k;
      (rewrite !lookup_insert_ne by done;
       rewrite copy_fields_json by (unfold JSON_FIELDS; repeat constructor);
       by destruct (row !! _)).
  - intros k Hk.
    assert (∀ k', k' ∈ JSON_FIELDS → k' ≠ k) as Hne by (intros k' ? ->; done).
    rewrite !lookup_insert_ne by (apply Hne; unfold JSON_FIELDS; repeat constructor).
    rewrite copy_fields_lookup, decide_False by done.
    unfold DEFAULT_ROW.
    rewrite !lookup_insert_ne by (apply Hne; unfold JSON_FIELDS; repeat constructor).
    done.
Qed.

(** A value that [int] or [float] rejects is replaced by the default of
    [safe_int] or [safe_float]: 1.0 for [wait_till], 0 for [retries], and 0,
    not the 40 of [DEFAULT_ROW], for [print_ahead_chars]. *)
Lemma normalize_row_malformed (row : gmap string (pyval pyfloat)) (v : pyval pyfloat) :
  (row !! "wait_till" = Some v → py_float float_of_int float_of_str v = None →
   normalize (PDict row) !! "wait_till" = Some (PFloat one_point_zero))
  ∧ (row !! "retries" = Some v → py_int float_trunc v = None →
     normalize (PDict row) !! "retries" = Some (PInt 0))
  ∧ (row !! "print_ahead_chars" = Some v → py_int float_trunc v = None →
     normalize (PDict row) !! "print_ahead_chars" = Some (PInt 0)).
Proof.
  destruct (normalize_row_fields row) as (_ & Hw & Hp & Hr & _).
  repeat split; intros Hv Hbad.
  - rewrite Hw, Hv. unfold safe_float. simpl. by rewrite Hbad.
  - rewrite Hr, Hv. unfold safe_int. simpl. by rewrite Hbad.
  - rewrite Hp, Hv. unfold safe_int. simpl. by rewrite Hbad.
Qed.

(** What is not a JSON object becomes the default record. *)
Lemma normalize_row_not_dict (v : pyval pyfloat) :
  (∀ d, v ≠ PDict d) → normalize v = defaults.
Proof. intros Hv. destruct v; try done. by destruct (Hv d). Qed.

(** C7, at a failing input: the record holds a [print_ahead_chars] that
    is no number; the documented default of the field is 40
    ([DEFAULT_ROW]), and [normalize_row] stores 0. *)
Theorem malformed_print_ahead_chars_becomes_zero :
  int_of_str "abc" = None
  ∧ defaults !! "print_ahead_chars" = Some (PInt 40)
  ∧ normalize (PDict (<["print_ahead_chars" := PStr "abc"]> ∅))
      !! "print_ahead_chars" = Some (PInt 0).
Proof.
  split; [by vm_compute|]. split; [by vm_compute|].
  destruct (normalize_row_malformed
              (<["print_ahead_chars" := PStr "abc"]> ∅) (PStr "abc"))
    as (_ & _ & H).
  apply H; by vm_compute.
Qed.

End LoaderFacts.

(** ** The theorems at concrete inputs *)

Lemma check_buffer_is_literal_or_regex_witness :
  check_buffer demo_re_error demo_re_find "OK" "(" ("AT" ++ CRLF ++ "OK") = Ok true.
Proof.
  destruct (check_buffer_is_literal_or_regex demo_re_error demo_re_find
              "OK" "" ("AT" ++ CRLF ++ "OK")) as (_ & Hshort & _).
  apply Hshort. reflexivity.
Defined.

Lemma mark_error_leaves_duration_witness :
  wf_item at_line
  ∧ ∃ it', _mark_error at_line "device disconnected" = Ok it'
         ∧ values it' !! IDX_DURATION = Some "".
Proof.
  assert (Hwf : wf_item at_line) by reflexivity.
  split; [exact Hwf|].
  destruct (mark_error_leaves_duration demo_format_2f at_line
              "device disconnected" Hwf) as (it' & Hm & _ & _ & _ & _ & Hd & _).
  exists it'. split; [exact Hm|]. rewrite Hd. reflexivity.
Defined.

Lemma wait_window_is_three_seconds_witness :
  wf_item at_line
  ∧ transmit (link silent) = Ok tt
  ∧ ∃ n, (1 ≤ n ≤ 60)%nat
       ∧ run_one demo_re_error demo_re_find demo_format_2f at_line silent
         = Some (at_line_failed, ["AT" ++ CRLF], None)
       ∧ (∀ k, (k < n)%nat → slept k (polls silent) < timeout)
       ∧ timeout ≤ slept n (polls silent).
Proof.
  assert (Hwf : wf_item at_line) by reflexivity.
  assert (Hlink : transmit (link silent) = Ok tt) by reflexivity.
  split; [exact Hwf|]. split; [exact Hlink|].
  destruct (wait_window_is_three_seconds demo_re_error demo_re_find
              demo_wrap demo_format_2f demo_tk_str [at_case ∅]
              (λ _, PFloat 9000) true 1 [silent] at_line silent Hwf Hlink)
    as (_ & _ & _ & n & it' & Hrun & Hn & Hin & _ & Hlast & _).
  assert (Hit : it' = at_line_failed).
  { assert (Hc : run_one demo_re_error demo_re_find demo_format_2f at_line silent
                 = Some (at_line_failed, ["AT" ++ CRLF], None))
      by (vm_compute; reflexivity).
    rewrite Hc in Hrun. injection Hrun as Hrun. symmetry. exact Hrun. }
  subst it'. exists n. split; [exact Hn|]. split; [vm_compute; reflexivity|].
  split; [exact Hin|].
  destruct (pass_finds demo_re_error demo_re_find (cell 3 at_line)
              (cell 4 at_line) "" (polls silent) n) as [[|]|msg].
  - apply (f_equal tags) in Hlast. discriminate Hlast.
  - destruct Hlast as [Hto _]. exact Hto.
  - apply (f_equal tags) in Hlast. discriminate Hlast.
Defined.

Lemma transport_fault_is_contained_witness :
  Forall wf_item [at_line; at_line]
  ∧ transport_fault demo_re_error demo_re_find (cell 3 at_line) (cell 4 at_line)
      unplugged "device disconnected"
  ∧ ∃ st, _run_worker demo_re_error demo_re_find demo_format_2f
            [at_line; at_line] [unplugged; echo_ok] false = Some st
        ∧ escaped st = None
        ∧ verdict <$> tree st = [Some "ERROR"; Some "PASS"].
Proof.
  assert (Hwf : Forall wf_item [at_line; at_line]) by (repeat constructor).
  assert (Hfault : transport_fault demo_re_error demo_re_find (cell 3 at_line)
                     (cell 4 at_line) unplugged "device disconnected")
    by (right; left; reflexivity).
  split; [exact Hwf|]. split; [exact Hfault|].
  destruct (transport_fault_is_contained demo_re_error demo_re_find demo_format_2f
              at_line [at_line] unplugged [echo_ok] "device disconnected"
              Hwf Hfault)
    as (st & line & Hst & Hesc & Hrun & Hline & _).
  eexists. split; [exact Hrun|]. split; [reflexivity|].
  vm_compute in Hst. injection Hst as <-. rewrite Hline. reflexivity.
Defined.

Lemma stop_takes_effect_between_attempts_witness :
  Forall scheduled [at_line; at_line; at_line]
  ∧ (1 ≤ 2 ≤ List.length [at_line; at_line; at_line])%nat
  ∧ stop_first_pressed_at (2 - 1) [echo_ok; silent_then_stop; echo_ok]
  ∧ ∃ st, _run_worker demo_re_error demo_re_find demo_format_2f
            [at_line; at_line; at_line]
            [echo_ok; silent_then_stop; echo_ok] false = Some st
        ∧ Forall terminal (take 2 (tree st))
        ∧ Forall (λ r, verdict r = Some "PENDING") (drop 2 (tree st)).
Proof.
  assert (Hs : Forall scheduled [at_line; at_line; at_line])
    by (repeat constructor).
  assert (Hi : (1 ≤ 2 ≤ List.length [at_line; at_line; at_line])%nat)
    by (simpl; lia).
  assert (Hp : stop_first_pressed_at (2 - 1) [echo_ok; silent_then_stop; echo_ok]).
  { split; [|reflexivity]. intros j Hj.
    destruct j as [|j]; [reflexivity|simpl in Hj; lia]. }
  split; [exact Hs|]. split; [exact Hi|]. split; [exact Hp|].
  destruct (stop_takes_effect_between_attempts demo_re_error demo_re_find
              demo_format_2f [at_line; at_line; at_line]
              [echo_ok; silent_then_stop; echo_ok] 2 Hs Hi Hp)
    as (st & st' & Hst & _ & _ & Hterm & _ & Hpend & _).
  exists st. split; [exact Hst|]. split; [exact Hterm | exact Hpend].
Defined.

Lemma invalid_regex_never_fails_witness :
  wf_item bad_regex_line
  ∧ cell 4 bad_regex_line ≠ ""
  ∧ demo_re_error (cell 4 bad_regex_line)
    = Some "missing ), unterminated subpattern at position 0"
  ∧ ∃ it' log,
      run_one demo_re_error demo_re_find demo_format_2f bad_regex_line silent
        = Some (it', log, None)
      ∧ verdict it' = Some "ERROR".
Proof.
  assert (Hwf : wf_item bad_regex_line) by reflexivity.
  assert (Hne : cell 4 bad_regex_line ≠ "") by (simpl; discriminate).
  assert (Herr : demo_re_error (cell 4 bad_regex_line)
                 = Some "missing ), unterminated subpattern at position 0")
    by reflexivity.
  split; [exact Hwf|]. split; [exact Hne|]. split; [exact Herr|].
  destruct (invalid_regex_never_fails demo_re_error demo_re_find demo_format_2f
              bad_regex_line silent _ Hwf Hne Herr) as (it' & log & Hrun & Hv & _).
  exists it', log. split; [exact Hrun | exact Hv].
Defined.

Lemma each_line_is_attempted_once_witness :
  wf_item at_line
  ∧ demo_run_all ((λ t, <["retries" := PInt 3]> t) <$> [retry_case])
      true 1 [silent; echo_ok]
    = demo_run_all [retry_case] true 1 [silent; echo_ok].
Proof.
  assert (Hwf : wf_item at_line) by reflexivity.
  split; [exact Hwf|].
  exact (proj2 (each_line_is_attempted_once demo_re_error demo_re_find
                  demo_wrap demo_format_2f demo_tk_str at_line [] [silent; echo_ok]
                  [retry_case] (λ _, PInt 3) true 1 Hwf)).
Defined.

(** * Further properties of the loader *)

Lemma json_fields_cases (k : string) :
  k ∈ JSON_FIELDS ↔
  k = "command_name" ∨ k = "command" ∨ k = "expected" ∨ k = "expected_regex"
  ∨ k = "negative" ∨ k = "wait_till" ∨ k = "print_after"
  ∨ k = "print_ahead_chars" ∨ k = "message" ∨ k = "retries".
Proof.
  unfold JSON_FIELDS. rewrite !elem_of_cons, elem_of_nil. tauto.
Qed.

Section LoaderMore.

Context {pyfloat : Type}.
Context (float_of_int : Z → option pyfloat).
Context (float_of_str : string → option pyfloat).
Context (float_trunc : pyfloat → option Z).
Context (float_nonzero : pyfloat → bool).
Context (one_point_zero : pyfloat).

Abbreviation norm :=
  (normalize_row float_of_int float_of_str float_trunc float_nonzero one_point_zero).
Abbreviation dflt_row := (DEFAULT_ROW one_point_zero).

Lemma default_row_outside (k : string) : k ∉ JSON_FIELDS → dflt_row !! k = None.
Proof.
  intros Hk.
  assert (∀ k', k' ∈ JSON_FIELDS → k' ≠ k) as Hne by (intros k' ? ->; done).
  unfold DEFAULT_ROW.
  rewrite !lookup_insert_ne by (apply Hne; unfold JSON_FIELDS; repeat constructor).
  done.
Qed.

Lemma default_row_normalized : normalized dflt_row.
Proof.
  split; [|by repeat split; eexists].
  intros k. split.
  - intros Hs. destruct (decide (k ∈ JSON_FIELDS)) as [|Hn]; [done|].
    rewrite default_row_outside in Hs by done. by destruct Hs.
  - intros Hk%json_fields_cases. destruct_or!; subst k; by eexists.
Qed.

Lemma normalize_dict_normalized (r : gmap string (pyval pyfloat)) :
  normalized (norm (PDict r)).
Proof.
  destruct (normalize_row_fields float_of_int float_of_str float_trunc
              float_nonzero one_point_zero r) as (Hn & Hw & Hp & Hr & Hs & Ho).
  split; [|by repeat split; eexists].
  intros k. split.
  - intros Hk. destruct (decide (k ∈ JSON_FIELDS)) as [|Hnot]; [done|].
    rewrite Ho in Hk by done. by destruct Hk.
  - intros Hk%json_fields_cases.
    destruct_or!; subst k;
      first [ by rewrite Hn | by rewrite Hw | by rewrite Hp | by rewrite Hr
            | rewrite Hs; [done | repeat constructor] ].
Qed.

Lemma normalize_fixpoint (t : gmap string (pyval pyfloat)) :
  normalized t → norm (PDict t) = t.
Proof.
  intros (Hkeys & [b Hb] & [f Hf] & [p Hp] & [z Hz]).
  destruct (normalize_row_fields float_of_int float_of_str float_trunc
              float_nonzero one_point_zero t) as (Hn & Hw & Hpa & Hr & Hs & Ho).
  apply map_eq. intros k.
  destruct (decide (k ∈ JSON_FIELDS)) as [Hk|Hk].
  - assert (Htext : ∀ k', k' ∈ ["command_name"; "command"; "expected";
                                 "expected_regex"; "print_after"; "message"] →
                     norm (PDict t) !! k' = t !! k').
    { intros k' Hk'. rewrite Hs by done.
      assert (is_Some (t !! k')) as [v ->]; [|done].
      apply Hkeys, json_fields_cases.
      rewrite !elem_of_cons, elem_of_nil in Hk'. tauto. }
    apply json_fields_cases in Hk. destruct_or!; subst k;
      first [ solve [apply Htext; repeat constructor]
            | by rewrite Hn, Hb | by rewrite Hw, Hf
            | by rewrite Hpa, Hp | by rewrite Hr, Hz ].
  - rewrite Ho by done. symmetry. apply eq_None_not_Some.
    intros His. by apply Hk, Hkeys.
Qed.

(** X1: whatever JSON value it is given, [normalize_row] returns a record
    with exactly the ten fields of [JSON_FIELDS], in which [negative] is a
    boolean, [wait_till] a float and [print_ahead_chars] and [retries] are
    integers. *)
Theorem normalize_row_shape (row : pyval pyfloat) : normalized (norm row).
Proof.
  destruct row; try apply default_row_normalized.
  apply normalize_dict_normalized.
Qed.

(** X2: [normalize_row] is idempotent: a record that was normalised once
    (as [load_json] does) comes back unchanged from a second pass. *)
Theorem normalize_row_idempotent (row : pyval pyfloat) :
  norm (PDict (norm row)) = norm row.
Proof. apply normalize_fixpoint, normalize_row_shape. Qed.

(** X3: a field whose name is not in [JSON_FIELDS] is dropped: adding or
    changing such a field in the record does not change the result. *)
Theorem normalize_row_ignores_unknown (k : string) (v : pyval pyfloat)
    (r : gmap string (pyval pyfloat)) :
  k ∉ JSON_FIELDS →
  norm (PDict (<[k := v]> r)) = norm (PDict r)
  ∧ norm (PDict (<[k := v]> r)) !! k = None.
Proof.
  intros Hk.
  destruct (normalize_row_fields float_of_int float_of_str float_trunc
              float_nonzero one_point_zero r) as (Hn & Hw & Hp & Hr & Hs & Ho).
  destruct (normalize_row_fields float_of_int float_of_str float_trunc
              float_nonzero one_point_zero (<[k := v]> r))
    as (Hn' & Hw' & Hp' & Hr' & Hs' & Ho').
  split; [|by apply Ho'].
  assert (Hsame : ∀ k', k' ∈ JSON_FIELDS → <[k := v]> r !! k' = r !! k').
  { intros k' Hk'. apply lookup_insert_ne. by intros ->. }
  apply map_eq. intros k'.
  destruct (decide (k' ∈ JSON_FIELDS)) as [Hk'|Hk']; [|by rewrite Ho, Ho'].
  apply json_fields_cases in Hk'. destruct_or!; subst k';
    first [ rewrite Hn, Hn', Hsame; [done | repeat constructor]
          | rewrite Hw, Hw', Hsame; [done | repeat constructor]
          | rewrite Hp, Hp', Hsame; [done | repeat constructor]
          | rewrite Hr, Hr', Hsame; [done | repeat constructor]
          | rewrite Hs, Hs', Hsame; [done | repeat constructor ..] ].
Qed.

(** X4: a field of [JSON_FIELDS] that the record lacks gets the value that
    [DEFAULT_ROW] has for it (40 for [print_ahead_chars], 1.0 for
    [wait_till], 0 for [retries], false for [negative], the empty string for
    the text fields). *)
Theorem normalize_row_missing_field (k : string)
    (r : gmap string (pyval pyfloat)) :
  k ∈ JSON_FIELDS → r !! k = None →
  norm (PDict r) !! k = dflt_row !! k.
Proof.
  intros Hk Hnone.
  destruct (normalize_row_fields float_of_int float_of_str float_trunc
              float_nonzero one_point_zero r) as (Hn & Hw & Hp & Hr & Hs & _).
  apply json_fields_cases in Hk. destruct_or!; subst k;
    first [ by rewrite Hn, Hnone | by rewrite Hw, Hnone
          | by rewrite Hp, Hnone | by rewrite Hr, Hnone
          | rewrite Hs, Hnone; [done | repeat constructor] ].
Qed.

End LoaderMore.

(** * Further properties of the engine *)

Section EngineMore.

Context (re_error : string → option string).
Context (re_find : string → string → bool).
Context (format_2f : Z → string).

Abbreviation chk := (check_buffer re_error re_find).
Abbreviation wloop := (wait_loop re_error re_find).
Abbreviation line := (run_one re_error re_find format_2f).
Abbreviation wk := (_run_worker re_error re_find format_2f).

(** A loop that gives up had no match in its final buffer. *)
Lemma wait_loop_miss (fuel : nat) (expected regex buf : string) (elapsed : Z)
    (ps : list poll) (buf' : string) (dur : Z) :
  wloop fuel expected regex buf elapsed ps = Some (Ok (false, buf', dur)) →
  elapsed < timeout →
  chk expected regex buf' = Ok false.
Proof.
  revert buf elapsed ps. induction fuel as [|fuel IH]; intros buf elapsed ps Hw Hlt.
  - simpl in Hw. by rewrite decide_True in Hw.
  - rewrite wait_loop_unfold in Hw by done. cbv zeta in Hw.
    set (p := List.hd idle_poll ps) in *.
    assert (Hm :
      match chk expected regex (buf ++ poll_text (answer p)) with
      | Raise e => Some (Raise e)
      | Ok true => Some (Ok (true, buf ++ poll_text (answer p),
                             elapsed + POLL_PERIOD + Z.of_nat (lag p)))
      | Ok false => wloop fuel expected regex (buf ++ poll_text (answer p))
                      (elapsed + POLL_PERIOD + Z.of_nat (lag p)) (List.tl ps)
      end = Some (Ok (false, buf', dur))).
    { by destruct (answer p). }
    clear Hw. revert Hm.
    destruct (chk expected regex (buf ++ poll_text (answer p))) as [[|]|] eqn:Hc;
      intros Hm; [done | | done].
    destruct (decide (elapsed + POLL_PERIOD + Z.of_nat (lag p) < timeout))
      as [Hlt'|Hge'].
    + by eapply IH.
    + rewrite wait_loop_expired in Hm by lia. by injection Hm as <- _.
Qed.

Lemma attempt_outcome_sound (expected regex : string) (e : attempt_env)
    (o : outcome) :
  attempt_outcome re_error re_find expected regex e = Some o →
  match o with
  | Passed buf dur => chk expected regex buf = Ok true ∧ POLL_PERIOD ≤ dur
  | Failed buf dur => chk expected regex buf = Ok false ∧ timeout ≤ dur
  | Errored _ => True
  end.
Proof.
  unfold attempt_outcome. destruct (transmit (link e)); [|by intros [= <-]].
  destruct (wait_loop _ _ _ _ _ _ _ _) as [[[[[|] buf] dur]|m]|] eqn:Hw;
    intros [= <-]; [| |done].
  - destruct (wait_loop_result _ _ _ _ _ _ _ _ _ _ _ Hw) as (_ & _ & Hf & _).
    destruct (Hf eq_refl) as [Hd Hc]. split; [done | lia].
  - destruct (wait_loop_result _ _ _ _ _ _ _ _ _ _ _ Hw) as (_ & Ht & _).
    split; [|by apply Ht].
    eapply wait_loop_miss; [exact Hw | by unfold timeout].
Qed.

Lemma settle_cells (it : item) (o : outcome) :
  wf_item it →
  match o with
  | Passed buf dur =>
      values (settle format_2f it o) !! IDX_FOUND = Some "YES"
      ∧ values (settle format_2f it o) !! IDX_DURATION = Some (format_2f dur)
      ∧ values (settle format_2f it o) !! IDX_SNIPPET = Some (str_take 80 (strip buf))
      ∧ tags (settle format_2f it o) = "pass"
  | Failed buf dur =>
      values (settle format_2f it o) !! IDX_FOUND = Some "NO"
      ∧ values (settle format_2f it o) !! IDX_DURATION = Some (format_2f dur)
      ∧ values (settle format_2f it o) !! IDX_SNIPPET = Some (str_take 80 (strip buf))
      ∧ tags (settle format_2f it o) = "fail"
  | Errored msg =>
      values (settle format_2f it o) !! IDX_FOUND = Some "?"
      ∧ values (settle format_2f it o) !! IDX_DURATION = values it !! IDX_DURATION
      ∧ values (settle format_2f it o) !! IDX_SNIPPET = Some msg
      ∧ tags (settle format_2f it o) = "error"
  end.
Proof. intros H. nine_cells it H. by destruct o. Qed.

(** X5: the verdicts PASS and FAIL mean what they say.  A line marked PASS
    went through at least one 50 ms pass and its accumulated buffer
    matches the expectation; a line marked FAIL waited for the whole 3 s
    window and its final buffer does not match.  Found, Duration and
    Snippet are those of that buffer. *)
Theorem pass_and_fail_are_sound (it : item) (e : attempt_env) (it' : item)
    (log : list string) (esc : option string) :
  wf_item it →
  line it e = Some (it', log, esc) →
  (verdict it' = Some "PASS" →
   ∃ buf dur,
     chk (cell 3 it) (cell 4 it) buf = Ok true
     ∧ POLL_PERIOD ≤ dur
     ∧ values it' !! IDX_FOUND = Some "YES"
     ∧ values it' !! IDX_DURATION = Some (format_2f dur)
     ∧ values it' !! IDX_SNIPPET = Some (str_take 80 (strip buf)))
  ∧ (verdict it' = Some "FAIL" →
     ∃ buf dur,
       chk (cell 3 it) (cell 4 it) buf = Ok false
       ∧ timeout ≤ dur
       ∧ values it' !! IDX_FOUND = Some "NO"
       ∧ values it' !! IDX_DURATION = Some (format_2f dur)
       ∧ values it' !! IDX_SNIPPET = Some (str_take 80 (strip buf))).
Proof.
  intros Hwf. rewrite run_one_wf by done.
  destruct (attempt_outcome _ _ _ _ _) as [o|] eqn:Ho; [|done].
  cbn [mbind option_bind]. intros [= <- _ _].
  pose proof (attempt_outcome_sound _ _ _ _ Ho) as Hs.
  pose proof (settle_cells (running_item it) o (running_item_wf _ Hwf)) as Hc.
  rewrite verdict_settle by (by apply running_item_wf).
  destruct o as [buf dur|buf dur|msg]; cbn [outcome_text];
    (split; intros [=]);
    destruct Hs as [Hs1 Hs2]; destruct Hc as (Hc1 & Hc2 & Hc3 & _);
    by exists buf, dur.
Qed.

(** X6: a test case with no expectation at all (no literal, no pattern)
    never passes. *)
Theorem no_expectation_never_passes (it : item) (e : attempt_env) (it' : item)
    (log : list string) (esc : option string) :
  wf_item it →
  cell 3 it = "" → cell 4 it = "" →
  line it e = Some (it', log, esc) →
  verdict it' ≠ Some "PASS".
Proof.
  intros Hwf H3 H4 Hrun Hpass.
  destruct (pass_and_fail_are_sound it e it' log esc Hwf Hrun) as [Hp _].
  destruct (Hp Hpass) as (buf & dur & Hc & _).
  rewrite H3, H4 in Hc. discriminate Hc.
Qed.

(** *** A test case with a literal only *)

Lemma check_buffer_literal_only (expected buf : string) :
  chk expected "" buf = Ok (nonempty expected && contains expected buf).
Proof. unfold check_buffer. by destruct (nonempty expected && contains expected buf). Qed.

Lemma fault_free_hd (ps : list poll) :
  fault_free ps → ∀ m, answer (List.hd idle_poll ps) ≠ PollFault m.
Proof.
  intros Hf m. destruct ps as [|p ps]; [done|].
  apply Forall_cons in Hf as [Hp _]. apply Hp.
Qed.

Lemma fault_free_tl (ps : list poll) : fault_free ps → fault_free (List.tl ps).
Proof.
  intros Hf. destruct ps as [|p ps]; [done|]. by apply Forall_cons in Hf as [_ ?].
Qed.

Lemma wait_loop_unfold_no_fault (fuel : nat) (expected regex buf : string)
    (elapsed : Z) (ps : list poll) :
  elapsed < timeout →
  (∀ m, answer (List.hd idle_poll ps) ≠ PollFault m) →
  wloop (S fuel) expected regex buf elapsed ps =
    match chk expected regex (buf ++ poll_text (answer (List.hd idle_poll ps))) with
    | Raise e => Some (Raise e)
    | Ok true =>
        Some (Ok (true, buf ++ poll_text (answer (List.hd idle_poll ps)),
                  elapsed + POLL_PERIOD + Z.of_nat (lag (List.hd idle_poll ps))))
    | Ok false =>
        wloop fuel expected regex (buf ++ poll_text (answer (List.hd idle_poll ps)))
          (elapsed + POLL_PERIOD + Z.of_nat (lag (List.hd idle_poll ps)))
          (List.tl ps)
    end.
Proof.
  intros Hlt Hnf. rewrite wait_loop_unfold by done. cbv zeta.
  destruct (answer (List.hd idle_poll ps)) as [|m|s] eqn:Ha; [done| |done].
  by destruct (Hnf m).
Qed.

Lemma wait_loop_literal (fuel : nat) (expected buf : string) (elapsed : Z)
    (ps : list poll) :
  fault_free ps →
  timeout - elapsed ≤ POLL_PERIOD * Z.of_nat fuel →
  ∃ found buf' dur,
    wloop fuel expected "" buf elapsed ps = Some (Ok (found, buf', dur))
    ∧ (found = true ↔
       ∃ n, (1 ≤ n)%nat
          ∧ elapsed + slept (n - 1) ps < timeout
          ∧ nonempty expected && contains expected (buf ++ drained n ps) = true).
Proof.
  revert buf elapsed ps.
  induction fuel as [|fuel IH]; intros buf elapsed ps Hff Hfuel.
  - rewrite wait_loop_expired by (unfold POLL_PERIOD in Hfuel; lia).
    eexists _, _, _. split; [done|]. split; [done|].
    intros (n & _ & Hn & _). pose proof (slept_nonneg (n - 1) ps).
    unfold POLL_PERIOD in Hfuel. lia.
  - destruct (decide (elapsed < timeout)) as [Hlt|Hge].
    2:{ rewrite wait_loop_expired by lia.
        eexists _, _, _. split; [done|]. split; [done|].
        intros (n & _ & Hn & _). pose proof (slept_nonneg (n - 1) ps). lia. }
    rewrite wait_loop_unfold_no_fault by (by try apply fault_free_hd).
    rewrite check_buffer_literal_only.
    set (p := List.hd idle_poll ps).
    destruct (nonempty expected && contains expected (buf ++ poll_text (answer p)))
      eqn:Hhit.
    + eexists _, _, _. split; [done|]. split; [|done]. intros _.
      exists 1%nat. split; [lia|]. split; [simpl; lia|].
      simpl. fold p. by rewrite append_nil_r.
    + destruct (IH (buf ++ poll_text (answer p))
                  (elapsed + POLL_PERIOD + Z.of_nat (lag p)) (List.tl ps))
        as (found & buf' & dur & Hw & Hiff);
        [by apply fault_free_tl | unfold POLL_PERIOD in *; lia |].
      exists found, buf', dur. split; [done|]. rewrite Hiff. split.
      * intros (n & Hn1 & Hn2 & Hn3). exists (S n).
        split; [lia|]. destruct n as [|n]; [lia|].
        replace (S (S n) - 1)%nat with (S n) by lia.
        replace (S n - 1)%nat with n in Hn2 by lia.
        split; [simpl; fold p; lia|].
        change (drained (S (S n)) ps)
          with (poll_text (answer p) ++ drained (S n) (List.tl ps)).
        by rewrite <- append_assoc.
      * intros (n & Hn1 & Hn2 & Hn3). destruct n as [|[|n]]; [lia| |].
        { simpl in Hn3. fold p in Hn3. rewrite append_nil_r in Hn3. congruence. }
        exists (S n). split; [lia|].
        replace (S (S n) - 1)%nat with (S n) in Hn2 by lia.
        replace (S n - 1)%nat with n by lia.
        split; [simpl in Hn2; fold p in Hn2; lia|].
        change (drained (S (S n)) ps)
          with (poll_text (answer p) ++ drained (S n) (List.tl ps)) in Hn3.
        by rewrite append_assoc.
Qed.

(** X7: with a literal and no pattern, on a line that raises nothing, the
    verdict is PASS or FAIL, and it is PASS exactly when the literal is set
    and occurs in what the first [n] passes read, for some pass [n] that
    starts inside the 3 s window. *)
Theorem literal_only_verdict (it : item) (e : attempt_env) :
  wf_item it →
  cell 4 it = "" →
  transmit (link e) = Ok tt →
  fault_free (polls e) →
  ∃ it' log,
    line it e = Some (it', log, None)
    ∧ (verdict it' = Some "PASS" ∨ verdict it' = Some "FAIL")
    ∧ (verdict it' = Some "PASS" ↔
       cell 3 it ≠ ""
       ∧ ∃ n, (1 ≤ n)%nat
            ∧ slept (n - 1) (polls e) < timeout
            ∧ is_substring (cell 3 it) (drained n (polls e))).
Proof.
  intros Hwf H4 Hlink Hff. rewrite run_one_wf by done.
  unfold attempt_outcome. rewrite Hlink, H4.
  destruct (wait_loop_literal POLL_BUDGET (cell 3 it) "" 0 (polls e) Hff)
    as (found & buf & dur & -> & Hiff);
    [unfold timeout, POLL_PERIOD, POLL_BUDGET; lia|].
  cbn [mbind option_bind]. eexists _, _. split; [done|].
  rewrite verdict_settle by (by apply running_item_wf).
  assert (Hhit : found = true ↔
            cell 3 it ≠ ""
            ∧ ∃ n, (1 ≤ n)%nat ∧ slept (n - 1) (polls e) < timeout
                 ∧ is_substring (cell 3 it) (drained n (polls e))).
  { rewrite Hiff. split.
    - intros (n & Hn1 & Hn2 & Hn3). rewrite append_nil_l in Hn3.
      apply literal_hit_iff in Hn3 as [Hne Hsub].
      split; [done|]. exists n. split; [done|]. split; [lia | done].
    - intros (Hne & n & Hn1 & Hn2 & Hn3). exists n.
      split; [done|]. split; [lia|]. rewrite append_nil_l.
      by apply literal_hit_iff. }
  destruct found; cbn [outcome_text].
  - split; [by left|]. split; [intros _; by apply Hhit | done].
  - split; [by right|]. split; [done|]. intros H. by apply Hhit in H.
Qed.

(** *** The table after a run *)

Lemma settle_same_identity (it : item) (o : outcome) :
  wf_item it → same_identity it (settle format_2f (running_item it) o).
Proof.
  intros H i Hi. nine_cells it H. unfold IDX_FOUND in Hi.
  destruct o; do 5 (destruct i as [|i]; [done|]); lia.
Qed.

(** X8: a run in which Stop is never pressed visits every line: when the
    worker is through, every line of the table is in a terminal state
    (PASS, FAIL or ERROR), none is left PENDING or RUNNING, and no
    exception has left the loop. *)
Theorem unstopped_run_is_complete (rows : list item) (envs : list attempt_env) :
  Forall wf_item rows →
  Forall (λ e, stop_pressed e = false) envs →
  ∃ st, wk rows envs false = Some st
      ∧ escaped st = None
      ∧ List.length (tree st) = List.length rows
      ∧ Forall terminal (tree st).
Proof.
  intros Hwf. revert envs.
  induction Hwf as [|it rest Hit Hrest IH]; intros envs Hns.
  - by exists (RunState [] [] None).
  - rewrite run_worker_cons by done. cbv zeta.
    destruct (attempt_outcome_total re_error re_find (cell 3 it) (cell 4 it)
                (List.hd quiet_env envs)) as [o ->].
    assert (Hhd : stop_pressed (List.hd quiet_env envs) = false).
    { destruct envs as [|e es]; [done|]. by apply Forall_cons in Hns as [? _]. }
    assert (Htl : Forall (λ e, stop_pressed e = false) (List.tl envs)).
    { destruct envs as [|e es]; [done|]. by apply Forall_cons in Hns as [_ ?]. }
    rewrite Hhd. destruct (IH _ Htl) as (st & -> & Hesc & Hlen & Hterm).
    cbn [mbind option_bind]. eexists. split; [done|].
    cbn [tree escaped]. split; [done|]. split; [simpl; by rewrite Hlen|].
    constructor; [|done]. by apply settle_terminal, running_item_wf.
Qed.

Lemma worker_keeps_identity (rows : list item) (envs : list attempt_env)
    (stop_flag : bool) (st : run_state) :
  Forall wf_item rows →
  wk rows envs stop_flag = Some st →
  Forall2 (λ r r', wf_item r' ∧ same_identity r r') rows (tree st).
Proof.
  intros Hwf. revert envs stop_flag st.
  induction Hwf as [|it rest Hit Hrest IH]; intros envs stop_flag st.
  - intros [= <-]. constructor.
  - destruct stop_flag.
    { rewrite run_worker_stopped. intros [= <-]. cbn [tree].
      apply Forall2_same_length_lookup_2; [done|].
      intros i r r' Hr Hr'. rewrite Hr in Hr'. injection Hr' as <-.
      split; [|done]. apply (Forall_lookup_1 _ _ _ _ (Forall_cons_2 _ _ _ Hit Hrest) Hr). }
    rewrite run_worker_cons by done. cbv zeta.
    destruct (attempt_outcome _ _ _ _ _) as [o|]; [|done]. cbn [mbind option_bind].
    destruct (wk rest _ _) as [st'|] eqn:Hst'; [|done]. cbn [mbind option_bind].
    intros [= <-]. cbn [tree]. constructor; [|by eapply IH].
    split; [by apply settle_wf, running_item_wf | by apply settle_same_identity].
Qed.

(** X9: a run never touches the identity of a line: whatever happens on
    the serial line and whenever Stop is pressed, each line of the final
    table still has nine cells and the columns Iter, Cmd Name, Cmd,
    Expected and Regex it was scheduled with. *)
Theorem run_keeps_identity_columns (rows : list item) (envs : list attempt_env)
    (stop_flag : bool) (st : run_state) :
  Forall wf_item rows →
  wk rows envs stop_flag = Some st →
  Forall2 (λ r r', wf_item r' ∧ same_identity r r') rows (tree st).
Proof. apply worker_keeps_identity. Qed.

(** X10: what goes out on the wire.  The commands written during a run
    form a sub-sequence of the Cmd cells of the table, in table order, each
    with its line breaks turned into blanks and followed by CR LF; when the
    port accepts every write and Stop is never pressed, every line's command
    goes out, exactly once. *)
Theorem commands_on_the_wire (rows : list item) (envs : list attempt_env)
    (stop_flag : bool) (st : run_state) :
  Forall wf_item rows →
  wk rows envs stop_flag = Some st →
  sublist (sent st) (wire_text <$> rows)
  ∧ (stop_flag = false →
     Forall (λ e, link e = LinkOk ∧ stop_pressed e = false) envs →
     sent st = wire_text <$> rows).
Proof.
  intros Hwf. revert envs stop_flag st.
  induction Hwf as [|it rest Hit Hrest IH]; intros envs stop_flag st.
  - intros [= <-]. split; [constructor | done].
  - destruct stop_flag.
    { rewrite run_worker_stopped. intros [= <-]. cbn [sent].
      split; [apply sublist_nil_l | done]. }
    rewrite run_worker_cons by done. cbv zeta.
    destruct (attempt_outcome _ _ _ _ _) as [o|]; [|done]. cbn [mbind option_bind].
    destruct (wk rest _ _) as [st'|] eqn:Hst'; [|done]. cbn [mbind option_bind].
    intros [= <-]. cbn [sent]. destruct (IH _ _ _ Hst') as [Hsub Heq]. split.
    + rewrite fmap_cons.
      destruct (link (List.hd quiet_env envs)); cbn [sent_by app];
        first [ by apply sublist_skip | by apply sublist_cons ].
    + intros _ Hall.
      assert (Hhd : link (List.hd quiet_env envs) = LinkOk
                    ∧ stop_pressed (List.hd quiet_env envs) = false).
      { destruct envs as [|e es]; [done|]. by apply Forall_cons in Hall as [? _]. }
      assert (Htl : Forall (λ e, link e = LinkOk ∧ stop_pressed e = false)
                      (List.tl envs)).
      { destruct envs as [|e es]; [done|]. by apply Forall_cons in Hall as [_ ?]. }
      destruct Hhd as [Hl Hs]. rewrite Hl. rewrite Hs in Heq.
      rewrite fmap_cons. cbn [sent_by app]. by rewrite Heq.
Qed.

(** X17: the shape of the table, whenever and however often Stop is
    pressed: the lines that were run, all in a terminal state, come first,
    and every line after them is exactly as it was scheduled; no line is
    skipped, none is left RUNNING, and no more commands were written than
    lines were run. *)
Theorem table_is_done_then_pending (rows : list item) (envs : list attempt_env)
    (stop_flag : bool) (st : run_state) :
  Forall wf_item rows →
  wk rows envs stop_flag = Some st →
  ∃ n, (n ≤ List.length rows)%nat
     ∧ Forall terminal (take n (tree st))
     ∧ drop n (tree st) = drop n rows
     ∧ List.length (tree st) = List.length rows
     ∧ (List.length (sent st) ≤ n)%nat.
Proof.
  intros Hwf. revert envs stop_flag st.
  induction Hwf as [|it rest Hit Hrest IH]; intros envs stop_flag st.
  - intros [= <-]. exists 0%nat. by repeat split.
  - destruct stop_flag.
    { rewrite run_worker_stopped. intros [= <-]. exists 0%nat.
      cbn [tree sent]. rewrite take_0, !drop_0.
      split; [lia|]. split; [constructor|]. split; [done|]. split; [done|].
      simpl. lia. }
    rewrite run_worker_cons by done. cbv zeta.
    destruct (attempt_outcome _ _ _ _ _) as [o|]; [|done]. cbn [mbind option_bind].
    destruct (wk rest _ _) as [st'|] eqn:Hst'; [|done]. cbn [mbind option_bind].
    intros [= <-]. cbn [tree sent].
    destruct (IH _ _ _ Hst') as (n & Hn & Hterm & Hdrop & Hlen & Hsent).
    exists (S n). cbn [take drop List.length].
    split; [lia|]. split.
    { constructor; [|done]. by apply settle_terminal, running_item_wf. }
    split; [done|]. split; [by rewrite Hlen|].
    rewrite length_app. destruct (link _); simpl; lia.
Qed.

End EngineMore.

(** * Further properties of the scheduler *)

Lemma newlines_to_blanks_app (a b : string) :
  newlines_to_blanks (a ++ b) = newlines_to_blanks a ++ newlines_to_blanks b.
Proof.
  induction a as [|c a IH]; [done|].
  rewrite append_cons. cbn [newlines_to_blanks]. by rewrite IH, append_cons.
Qed.

Lemma newlines_to_blanks_id (s : string) :
  has_newline s = false → newlines_to_blanks s = s.
Proof.
  induction s as [|c s IH]; [done|]. cbn [has_newline newlines_to_blanks].
  intros [Hc Hs]%orb_false_iff. by rewrite Hc, IH.
Qed.

Lemma newlines_to_blanks_join (ls : list string) :
  Forall (λ l, has_newline l = false) ls →
  newlines_to_blanks (str_join (String "010" EmptyString) ls) = str_join " " ls.
Proof.
  induction 1 as [|l ls Hl Hls IH]; [done|].
  destruct ls as [|l' ls]; [by apply newlines_to_blanks_id|].
  change (str_join ?sep (l :: l' :: ls))
    with (l ++ sep ++ str_join sep (l' :: ls)).
  rewrite !newlines_to_blanks_app, IH, newlines_to_blanks_id by done.
  done.
Qed.

Section SchedulerMore.

Context {pyfloat : Type}.
Context (re_error : string → option string).
Context (re_find : string → string → bool).
Context (textwrap_wrap : string → nat → list string).
Context (format_2f : Z → string).
Context (tk_str : pyval pyfloat → string).

Abbreviation tc := (gmap string (pyval pyfloat)).
Abbreviation pend := (pending_item textwrap_wrap tk_str).
Abbreviation runall := (run_all re_error re_find textwrap_wrap format_2f tk_str).

Lemma rows_of_iteration_lookup (it : nat) (tests : list tc) (a : list item)
    (j : nat) (t : tc) :
  rows_of_iteration textwrap_wrap tk_str it tests = Ok a →
  tests !! j = Some t →
  ∃ r, a !! j = Some r ∧ pend it t = Ok r.
Proof.
  revert a j. induction tests as [|t0 ts IH]; intros a j; [done|]. simpl.
  destruct (pending_item _ _ it t0) as [r0|] eqn:Hr0; [|done]. simpl.
  destruct (rows_of_iteration _ _ it ts) as [rs|]; [|done]. simpl.
  intros [= <-]. destruct j as [|j]; simpl.
  - intros [= <-]. by exists r0.
  - intros Hj. by apply IH.
Qed.

Lemma rows_from_lookup (it n : nat) (tests : list tc) (rows : list item)
    (i j : nat) (t : tc) :
  rows_from textwrap_wrap tk_str it n tests = Ok rows →
  (i < n)%nat →
  tests !! j = Some t →
  ∃ r, rows !! (i * List.length tests + j)%nat = Some r ∧ pend (it + i) t = Ok r.
Proof.
  revert it rows i. induction n as [|n IH]; intros it rows i; [lia|]. simpl.
  destruct (rows_of_iteration _ _ it tests) as [a|] eqn:Ha; [|done]. simpl.
  destruct (rows_from _ _ (S it) n tests) as [b|] eqn:Hb; [|done]. simpl.
  intros [= <-] Hi Hj.
  destruct (rows_of_iteration_scheduled _ _ _ _ _ Ha) as [_ Hla].
  destruct i as [|i].
  - destruct (rows_of_iteration_lookup _ _ _ _ _ Ha Hj) as (r & Hr & Hp).
    exists r. rewrite Nat.add_0_r. split; [|done].
    simpl. by apply lookup_app_l_Some.
  - destruct (IH (S it) b i Hb ltac:(lia) Hj) as (r & Hr & Hp).
    exists r. split.
    + rewrite lookup_app_r by (rewrite Hla; simpl; lia).
      rewrite Hla. rewrite <- Hr. f_equal. simpl. lia.
    + rewrite <- Hp. f_equal. lia.
Qed.

(** X11: the order of the report.  A run of [k] iterations (at least one,
    whatever the Iterations field says) over a plan of [N] test cases
    leaves a table of [k * N] lines, and line [i * N + j] is iteration
    [i + 1] of test case [j]: its columns Iter, Cmd Name, Cmd, Expected and
    Regex are those of that test case, whatever the run did to the line. *)
Theorem report_is_iteration_major (tests : list tc) (ser_open : bool)
    (iter_var : Z) (envs : list attempt_env) (st : run_state) :
  runall tests ser_open iter_var envs = Some (Ran st) →
  List.length (tree st)
    = (Z.to_nat (Z.max 1 iter_var) * List.length tests)%nat
  ∧ ∀ i j t,
      (i < Z.to_nat (Z.max 1 iter_var))%nat →
      tests !! j = Some t →
      ∃ r c,
        tree st !! (i * List.length tests + j)%nat = Some r
        ∧ command_text textwrap_wrap t = Ok c
        ∧ values r !! 0%nat = Some (pretty (S i))
        ∧ values r !! 1%nat = Some (field_text tk_str t "command_name")
        ∧ values r !! 2%nat = Some c
        ∧ values r !! 3%nat = Some (field_text tk_str t "expected")
        ∧ values r !! 4%nat = Some (field_text tk_str t "expected_regex").
Proof.
  unfold run_all. destruct tests as [|t0 ts] eqn:Htests; [done|].
  rewrite <- Htests. destruct (negb ser_open); [done|].
  destruct (pending_rows _ _ _ tests) as [rows|] eqn:Hrows; [|done].
  destruct (_run_worker _ _ _ rows envs false) as [st'|] eqn:Hst; [|done].
  intros [= <-].
  destruct (pending_rows_scheduled _ _ _ _ _ Hrows) as [Hsched Hlen].
  assert (Hwf : Forall wf_item rows).
  { eapply Forall_impl; [exact Hsched|]. by intros r [? _]. }
  pose proof (worker_keeps_identity re_error re_find format_2f _ _ _ _ Hwf Hst)
    as Hid.
  split; [by rewrite <- (Forall2_length _ _ _ Hid)|].
  intros i j t Hi Hj.
  destruct (rows_from_lookup _ _ _ _ _ _ _ Hrows Hi Hj) as (r & Hr & Hp).
  destruct (Forall2_lookup_l _ _ _ _ _ Hid Hr) as (r' & Hr' & _ & Hsame).
  unfold pending_item in Hp.
  destruct (command_text textwrap_wrap t) as [c|] eqn:Hc; [|done].
  injection Hp as <-. exists r', c. split; [done|]. split; [done|].
  unfold same_identity, IDX_FOUND in Hsame.
  rewrite !Hsame by lia. by repeat split.
Qed.

(** X12: line breaks of the wrapped command.  [run_all] stores the command
    wrapped at 50 columns and [_run_worker] turns the line breaks back into
    blanks, so what is written for a command [c] is the lines of
    [textwrap.wrap(c, 50)] joined by single blanks, followed by CR LF (not
    [c] itself, when [c] is long or has runs of white space). *)
Theorem wrapped_command_on_the_wire (it : nat) (t : tc) (c : string) (r : item) :
  t !! "command" = Some (PStr c) →
  Forall (λ l, has_newline l = false) (textwrap_wrap c 50) →
  pend it t = Ok r →
  wire_text r = str_join " " (textwrap_wrap c 50) ++ CRLF
  ∧ sent_by (newlines_to_blanks (cell 2 r)) LinkOk
    = [str_join " " (textwrap_wrap c 50) ++ CRLF].
Proof.
  intros Hc Hnl. unfold pending_item, command_text. rewrite Hc.
  cbn [res_bind]. intros [= <-]. unfold wire_text, cell, wrap_text. simpl.
  by rewrite newlines_to_blanks_join.
Qed.

(** X13: the fields [negative], [wait_till], [print_after],
    [print_ahead_chars], [message] and [retries] of a test case never reach
    the engine: giving any of them any value, in every test case of the
    plan, changes nothing in the run. *)
Theorem hidden_fields_do_not_matter (k : string) (f : tc → pyval pyfloat)
    (tests : list tc) (ser_open : bool) (iter_var : Z)
    (envs : list attempt_env) :
  k ∈ hidden_fields →
  runall ((λ t, <[k := f t]> t) <$> tests) ser_open iter_var envs
  = runall tests ser_open iter_var envs.
Proof. intros Hk. by apply run_all_hidden_field, hidden_field. Qed.

End SchedulerMore.

(** * The loaded plan, the run and the report *)

Section PlanMore.

Context {pyfloat : Type}.
Context (float_of_int : Z → option pyfloat).
Context (float_of_str : string → option pyfloat).
Context (float_trunc : pyfloat → option Z).
Context (float_nonzero : pyfloat → bool).
Context (one_point_zero : pyfloat).
Context (re_error : string → option string).
Context (re_find : string → string → bool).
Context (textwrap_wrap : string → nat → list string).
Context (format_2f : Z → string).
Context (tk_str : pyval pyfloat → string).
Context (html_escape : string → string).

Abbreviation nrm :=
  (normalize_row float_of_int float_of_str float_trunc float_nonzero one_point_zero).
Abbreviation go := (run_all re_error re_find textwrap_wrap format_2f tk_str).
Abbreviation cmd_text := (command_text (pyfloat := pyfloat) textwrap_wrap).

Lemma run_all_started (tests : list (gmap string (pyval pyfloat)))
    (iter_var : Z) (envs : list attempt_env) :
  tests ≠ [] →
  go tests true iter_var envs =
    match pending_rows textwrap_wrap tk_str (Z.to_nat (Z.max 1 iter_var)) tests with
    | Raise e => Some (Crashed e)
    | Ok rows =>
        st ← _run_worker re_error re_find format_2f rows envs false; Some (Ran st)
    end.
Proof. intros Hne. by destruct tests. Qed.

Lemma command_of_normalized (r : gmap string (pyval pyfloat)) :
  nrm (PDict r) !! "command" = Some (default (PStr "") (r !! "command")).
Proof.
  destruct (normalize_row_fields float_of_int float_of_str float_trunc
              float_nonzero one_point_zero r) as (_ & _ & _ & _ & Hs & _).
  apply Hs. repeat constructor.
Qed.

Lemma command_text_of_text (rec : pyval pyfloat) :
  command_is_text rec → ∃ c, cmd_text (nrm rec) = Ok c.
Proof.
  intros Ht. unfold command_text.
  destruct rec as [| | | | | |r]; try (by eexists).
  rewrite command_of_normalized. simpl in Ht.
  destruct (r !! "command") as [[]|]; try done; by eexists.
Qed.

Lemma command_text_of_other (rec : pyval pyfloat) :
  ¬ command_is_text rec → ∃ e, cmd_text (nrm rec) = Raise e.
Proof.
  intros Ht. unfold command_text.
  destruct rec as [| | | | | |r]; try (by destruct Ht).
  rewrite command_of_normalized. simpl in Ht.
  destruct (r !! "command") as [[]|]; try (by destruct Ht); by eexists.
Qed.

Lemma command_text_raises_one_thing (t : gmap string (pyval pyfloat)) (e : string) :
  cmd_text t = Raise e → e = NOT_A_STRING.
Proof.
  unfold command_text. destruct (t !! "command") as [[]|]; by intros [= <-].
Qed.

Lemma rows_of_iteration_ok (it : nat) (tests : list (gmap string (pyval pyfloat))) :
  Forall (λ t, ∃ c, cmd_text t = Ok c) tests →
  ∃ a, rows_of_iteration textwrap_wrap tk_str it tests = Ok a.
Proof.
  induction 1 as [|t ts [c Hc] _ [a IH]]; [by eexists|].
  simpl. unfold pending_item. rewrite Hc. simpl. rewrite IH. by eexists.
Qed.

Lemma rows_from_ok (it n : nat) (tests : list (gmap string (pyval pyfloat))) :
  Forall (λ t, ∃ c, cmd_text t = Ok c) tests →
  ∃ rows, rows_from textwrap_wrap tk_str it n tests = Ok rows.
Proof.
  intros Hok. revert it. induction n as [|n IH]; intros it; [by eexists|].
  simpl. destruct (rows_of_iteration_ok it tests Hok) as [a ->].
  destruct (IH (S it)) as [b ->]. by eexists.
Qed.

Lemma rows_of_iteration_raise (it : nat) (tests : list (gmap string (pyval pyfloat))) :
  Exists (λ t, ∃ e, cmd_text t = Raise e) tests →
  rows_of_iteration textwrap_wrap tk_str it tests = Raise NOT_A_STRING.
Proof.
  induction tests as [|t ts IH]; intros Hex; [by apply Exists_nil in Hex|].
  simpl. unfold pending_item.
  destruct (cmd_text t) as [c|e] eqn:Hc; simpl.
  - apply Exists_cons in Hex as [[e He]|Hex]; [congruence|].
    by rewrite (IH Hex).
  - by rewrite (command_text_raises_one_thing _ _ Hc).
Qed.

(** X14: a plan loaded from records whose [command] is missing or a
    string always runs, whatever else the records hold (text or garbage in
    any other field, records that are no objects at all): with a port open
    [run_all] fills the table, the worker comes to its end, no exception
    escapes, and the table has one line per iteration and record. *)
Theorem loaded_plan_always_runs (records : list (pyval pyfloat))
    (iter_var : Z) (envs : list attempt_env) :
  records ≠ [] →
  Forall command_is_text records →
  ∃ st, go (nrm <$> records) true iter_var envs = Some (Ran st)
      ∧ escaped st = None
      ∧ List.length (tree st)
        = (Z.to_nat (Z.max 1 iter_var) * List.length records)%nat.
Proof.
  intros Hne Htext. rewrite run_all_started by (by destruct records).
  assert (Hok : Forall (λ t, ∃ c, cmd_text t = Ok c) (nrm <$> records)).
  { apply Forall_fmap. eapply Forall_impl; [exact Htext|].
    intros rec. apply command_text_of_text. }
  unfold pending_rows.
  destruct (rows_from_ok 1 (Z.to_nat (Z.max 1 iter_var)) _ Hok) as [rows Hrows].
  rewrite Hrows.
  destruct (rows_from_scheduled _ _ _ _ _ _ Hrows) as [Hsched Hlen].
  assert (Hwf : Forall wf_item rows).
  { eapply Forall_impl; [exact Hsched|]. by intros r [? _]. }
  destruct (run_worker_total re_error re_find format_2f rows envs false Hwf)
    as (st & -> & Hesc & Hl & _).
  exists st. split; [done|]. split; [done|].
  by rewrite Hl, Hlen, length_fmap.
Qed.

(** X15: [normalize_row] does not coerce the text fields, and a record
    whose [command] is not a string makes [run_all] raise while it fills
    the table, in the first iteration already: the worker is never started
    and nothing is written to the port. *)
Theorem non_text_command_stops_run_all (records : list (pyval pyfloat))
    (ser_open : bool) (iter_var : Z) (envs : list attempt_env) :
  ser_open = true →
  Exists (λ rec, ¬ command_is_text rec) records →
  ∃ e, go (nrm <$> records) ser_open iter_var envs = Some (Crashed e).
Proof.
  intros -> Hex. rewrite run_all_started
    by (destruct records; [by apply Exists_nil in Hex | done]).
  assert (Hbad : Exists (λ t, ∃ e, cmd_text t = Raise e) (nrm <$> records)).
  { apply Exists_fmap. eapply Exists_impl; [exact Hex|].
    intros rec. apply command_text_of_other. }
  unfold pending_rows.
  assert (Z.to_nat (Z.max 1 iter_var) = S (Z.to_nat (Z.max 1 iter_var) - 1))
    as -> by lia.
  cbn [rows_from]. rewrite (rows_of_iteration_raise _ _ Hbad).
  by eexists.
Qed.

(** *** The report *)

Lemma pending_item_classified (it : nat) (t : gmap string (pyval pyfloat))
    (r : item) :
  pending_item textwrap_wrap tk_str it t = Ok r → classified r.
Proof.
  unfold pending_item. destruct (command_text _ _); [|done].
  intros [= <-]. split; [done|]. by left.
Qed.

Lemma rows_of_iteration_classified (it : nat)
    (tests : list (gmap string (pyval pyfloat))) (rows : list item) :
  rows_of_iteration textwrap_wrap tk_str it tests = Ok rows →
  Forall classified rows.
Proof.
  revert rows. induction tests as [|t ts IH]; intros rows; simpl.
  - by intros [= <-].
  - destruct (pending_item _ _ it t) as [r|] eqn:Hr; [|done]. simpl.
    destruct (rows_of_iteration _ _ it ts) as [rs|]; [|done]. simpl.
    intros [= <-]. constructor; [by eapply pending_item_classified | by apply IH].
Qed.

Lemma rows_from_classified (it n : nat)
    (tests : list (gmap string (pyval pyfloat))) (rows : list item) :
  rows_from textwrap_wrap tk_str it n tests = Ok rows → Forall classified rows.
Proof.
  revert it rows. induction n as [|n IH]; intros it rows; simpl.
  - by intros [= <-].
  - destruct (rows_of_iteration _ _ it tests) as [a|] eqn:Ha; [|done]. simpl.
    destruct (rows_from _ _ (S it) n tests) as [b|] eqn:Hb; [|done]. simpl.
    intros [= <-]. apply Forall_app. split.
    + by eapply rows_of_iteration_classified.
    + by eapply IH.
Qed.

Lemma settle_classified (it : item) (o : outcome) :
  wf_item it → classified (settle format_2f (running_item it) o).
Proof.
  intros H. split; [by apply settle_wf, running_item_wf|].
  nine_cells it H. destruct o; cbn; auto 10.
Qed.

Lemma worker_classified (rows : list item) (envs : list attempt_env)
    (stop_flag : bool) (st : run_state) :
  Forall classified rows →
  _run_worker re_error re_find format_2f rows envs stop_flag = Some st →
  Forall classified (tree st).
Proof.
  intros Hcl. revert envs stop_flag st.
  induction Hcl as [|it rest Hit Hrest IH]; intros envs stop_flag st.
  - by intros [= <-].
  - destruct stop_flag.
    { rewrite run_worker_stopped. intros [= <-]. by constructor. }
    rewrite run_worker_cons by (by destruct Hit). cbv zeta.
    destruct (attempt_outcome _ _ _ _ _) as [o|]; [|done]. cbn [mbind option_bind].
    destruct (_run_worker _ _ _ rest _ _) as [st'|] eqn:Hst'; [|done].
    cbn [mbind option_bind]. intros [= <-]. cbn [tree].
    constructor; [by apply settle_classified; destruct Hit | by eapply IH].
Qed.

Lemma html_row_classified (r : item) :
  classified r →
  html_row html_escape (values r)
  = Ok ("<tr class='" ++ tags r ++ "'>"
        ++ str_concat ((λ x, "<td>" ++ html_escape x ++ "</td>") <$> values r)
        ++ "</tr>" ++ String "010" EmptyString).
Proof.
  intros [Hwf Hc]. nine_cells r Hwf. unfold cell in Hc. simpl in Hc.
  unfold html_row. simpl.
  destruct Hc as [(_ & -> & ->)|[(_ & -> & ->)|[(_ & -> & ->)|(_ & -> & ->)]]];
    reflexivity.
Qed.

Lemma rows_html_classified (rows : list item) :
  Forall classified rows →
  ∃ body, rows_html html_escape (values <$> rows) = Ok body.
Proof.
  induction 1 as [|r rs Hr _ [body IH]]; [by eexists|].
  rewrite fmap_cons. cbn [rows_html].
  rewrite (html_row_classified r Hr), IH. by eexists.
Qed.

(** X16: the report of a run.  In the table that a run leaves, the Found
    cell, the Result cell and the colour of every line go together
    (blank/PENDING, YES/PASS, NO/FAIL, ?/ERROR; no line is left RUNNING);
    [export_html] never raises on it, and the class of each table row of
    the page, [r[6].lower()], is the colour tag of the line, one of the
    classes that the style sheet of the page defines. *)
Theorem report_of_a_run (tests : list (gmap string (pyval pyfloat)))
    (ser_open : bool) (iter_var : Z) (envs : list attempt_env) (st : run_state) :
  go tests ser_open iter_var envs = Some (Ran st) →
  Forall classified (tree st)
  ∧ (∃ html, export_html html_escape (tree st) = Ok html)
  ∧ ∀ r, r ∈ tree st →
      tags r ∈ ["pending"; "pass"; "fail"; "error"]
      ∧ html_row html_escape (values r)
        = Ok ("<tr class='" ++ tags r ++ "'>"
              ++ str_concat ((λ x, "<td>" ++ html_escape x ++ "</td>") <$> values r)
              ++ "</tr>" ++ String "010" EmptyString).
Proof.
  unfold run_all. destruct tests as [|t0 ts] eqn:Htests; [done|].
  rewrite <- Htests. destruct (negb ser_open); [done|].
  destruct (pending_rows _ _ _ tests) as [rows|] eqn:Hrows; [|done].
  destruct (_run_worker _ _ _ rows envs false) as [st'|] eqn:Hst; [|done].
  intros [= <-].
  assert (Hcl : Forall classified (tree st')).
  { eapply worker_classified; [|exact Hst]. by eapply rows_from_classified. }
  split; [done|]. split.
  - unfold export_html, _generate_html.
    destruct (rows_html_classified _ Hcl) as [body ->]. by eexists.
  - intros r Hr.
    assert (Hr' : classified r) by (by eapply (Forall_forall (A := item)) in Hcl).
    split; [|by apply html_row_classified].
    destruct Hr' as [_ [(_ & _ & ->)|[(_ & _ & ->)|[(_ & _ & ->)|(_ & _ & ->)]]]];
      repeat constructor.
Qed.

End PlanMore.

(** * The further properties at concrete inputs *)

Lemma normalize_row_ignores_unknown_witness :
  ("colour" ∉ JSON_FIELDS)
  ∧ demo_normalize_row (PDict coloured_record)
    = demo_normalize_row (PDict (<["command" := PStr "AT"]> ∅)).
Proof.
  assert (H : "colour" ∉ JSON_FIELDS).
  { intros Hin. apply json_fields_cases in Hin. destruct_or!; discriminate Hin. }
  split; [exact H|].
  exact (proj1 (normalize_row_ignores_unknown demo_float_of_int demo_float_of_str
                  demo_float_trunc demo_float_nonzero 1000 "colour" (PStr "red")
                  (<["command" := PStr "AT"]> ∅) H)).
Defined.

Lemma normalize_row_missing_field_witness :
  "print_ahead_chars" ∈ JSON_FIELDS
  ∧ coloured_record !! "print_ahead_chars" = None
  ∧ demo_normalize_row (PDict coloured_record) !! "print_ahead_chars"
    = Some (PInt 40).
Proof.
  assert (Hk : "print_ahead_chars" ∈ JSON_FIELDS)
    by (unfold JSON_FIELDS; repeat constructor).
  assert (Hn : coloured_record !! "print_ahead_chars" = None) by reflexivity.
  split; [exact Hk|]. split; [exact Hn|].
  exact (normalize_row_missing_field demo_float_of_int demo_float_of_str
           demo_float_trunc demo_float_nonzero 1000 "print_ahead_chars"
           coloured_record Hk Hn).
Defined.

Lemma pass_and_fail_are_sound_witness :
  wf_item at_line
  ∧ run_one demo_re_error demo_re_find demo_format_2f at_line echo_ok
    = Some (at_line_passed, ["AT" ++ CRLF], None)
  ∧ ∃ buf dur,
      check_buffer demo_re_error demo_re_find "OK" "" buf = Ok true
      ∧ POLL_PERIOD ≤ dur.
Proof.
  assert (Hwf : wf_item at_line) by reflexivity.
  assert (Hrun : run_one demo_re_error demo_re_find demo_format_2f at_line echo_ok
                 = Some (at_line_passed, ["AT" ++ CRLF], None)) by (vm_compute; reflexivity).
  split; [exact Hwf|]. split; [exact Hrun|].
  destruct (pass_and_fail_are_sound demo_re_error demo_re_find demo_format_2f
              at_line echo_ok _ _ _ Hwf Hrun) as [Hp _].
  destruct (Hp eq_refl) as (buf & dur & Hc & Hd & _).
  exists buf, dur. split; [exact Hc | exact Hd].
Defined.

Lemma no_expectation_never_passes_witness :
  wf_item no_expectation_line
  ∧ cell 3 no_expectation_line = ""
  ∧ cell 4 no_expectation_line = ""
  ∧ ∃ it', run_one demo_re_error demo_re_find demo_format_2f
             no_expectation_line echo_ok
           = Some (it', ["AT" ++ CRLF], None)
         ∧ verdict it' ≠ Some "PASS".
Proof.
  assert (Hwf : wf_item no_expectation_line) by reflexivity.
  split; [exact Hwf|]. split; [reflexivity|]. split; [reflexivity|].
  eexists. split; [vm_compute; reflexivity|].
  eapply (no_expectation_never_passes demo_re_error demo_re_find demo_format_2f
            no_expectation_line echo_ok _ _ _ Hwf eq_refl eq_refl).
  vm_compute. reflexivity.
Defined.

Lemma literal_only_verdict_witness :
  wf_item at_line
  ∧ cell 4 at_line = ""
  ∧ transmit (link silent) = Ok tt
  ∧ fault_free (polls silent)
  ∧ ∃ it' log,
      run_one demo_re_error demo_re_find demo_format_2f at_line silent
        = Some (it', log, None)
      ∧ (verdict it' = Some "PASS" ∨ verdict it' = Some "FAIL").
Proof.
  assert (Hwf : wf_item at_line) by reflexivity.
  assert (Hff : fault_free (polls silent)) by constructor.
  split; [exact Hwf|]. split; [reflexivity|]. split; [reflexivity|].
  split; [exact Hff|].
  destruct (literal_only_verdict demo_re_error demo_re_find demo_format_2f
              at_line silent Hwf eq_refl eq_refl Hff) as (it' & log & Hrun & Hv & _).
  exists it', log. split; [exact Hrun | exact Hv].
Defined.

Lemma unstopped_run_is_complete_witness :
  Forall wf_item [at_line; no_expectation_line]
  ∧ Forall (λ e, stop_pressed e = false) [echo_ok; unplugged]
  ∧ ∃ st, _run_worker demo_re_error demo_re_find demo_format_2f
            [at_line; no_expectation_line] [echo_ok; unplugged] false = Some st
        ∧ Forall terminal (tree st).
Proof.
  assert (Hwf : Forall wf_item [at_line; no_expectation_line])
    by (repeat constructor).
  assert (Hns : Forall (λ e, stop_pressed e = false) [echo_ok; unplugged])
    by (repeat constructor).
  split; [exact Hwf|]. split; [exact Hns|].
  destruct (unstopped_run_is_complete demo_re_error demo_re_find demo_format_2f
              _ _ Hwf Hns) as (st & Hst & _ & _ & Hterm).
  exists st. split; [exact Hst | exact Hterm].
Defined.

Lemma run_keeps_identity_columns_witness :
  Forall wf_item [at_line]
  ∧ _run_worker demo_re_error demo_re_find demo_format_2f [at_line] [echo_ok] false
    = Some (RunState [at_line_passed] ["AT" ++ CRLF] None)
  ∧ Forall2 (λ r r', wf_item r' ∧ same_identity r r') [at_line] [at_line_passed].
Proof.
  assert (Hwf : Forall wf_item [at_line]) by (repeat constructor).
  assert (Hrun : _run_worker demo_re_error demo_re_find demo_format_2f
                   [at_line] [echo_ok] false
                 = Some (RunState [at_line_passed] ["AT" ++ CRLF] None))
    by (vm_compute; reflexivity).
  split; [exact Hwf|]. split; [exact Hrun|].
  exact (run_keeps_identity_columns demo_re_error demo_re_find demo_format_2f
           _ _ _ _ Hwf Hrun).
Defined.

Lemma commands_on_the_wire_witness :
  Forall wf_item [at_line; at_line]
  ∧ _run_worker demo_re_error demo_re_find demo_format_2f
      [at_line; at_line] [unplugged; echo_ok] false
    = Some (RunState
              [Item ["1"; ""; "AT"; "OK"; ""; "?"; "ERROR"; ""; "device disconnected"]
                 "error"; at_line_passed]
              ["AT" ++ CRLF] None)
  ∧ sublist ["AT" ++ CRLF] (wire_text <$> [at_line; at_line]).
Proof.
  assert (Hwf : Forall wf_item [at_line; at_line]) by (repeat constructor).
  assert (Hrun : _run_worker demo_re_error demo_re_find demo_format_2f
                   [at_line; at_line] [unplugged; echo_ok] false
                 = Some (RunState
                     [Item ["1"; ""; "AT"; "OK"; ""; "?"; "ERROR"; "";
                            "device disconnected"] "error"; at_line_passed]
                     ["AT" ++ CRLF] None))
    by (vm_compute; reflexivity).
  split; [exact Hwf|]. split; [exact Hrun|].
  exact (proj1 (commands_on_the_wire demo_re_error demo_re_find demo_format_2f
                  _ _ _ _ Hwf Hrun)).
Defined.

Lemma report_is_iteration_major_witness :
  demo_run_all [at_case ∅] true 2 [echo_ok; silent]
    = Some (Ran (RunState [at_line_passed;
                           Item ["2"; ""; "AT"; "OK"; ""; "NO"; "FAIL"; "3.00"; ""]
                             "fail"]
                   ["AT" ++ CRLF; "AT" ++ CRLF] None))
  ∧ List.length [at_line_passed;
                 Item ["2"; ""; "AT"; "OK"; ""; "NO"; "FAIL"; "3.00"; ""] "fail"]
    = (Z.to_nat (Z.max 1 2) * List.length [at_case ∅])%nat.
Proof.
  assert (Hrun : demo_run_all [at_case ∅] true 2 [echo_ok; silent]
    = Some (Ran (RunState [at_line_passed;
                           Item ["2"; ""; "AT"; "OK"; ""; "NO"; "FAIL"; "3.00"; ""]
                             "fail"]
                   ["AT" ++ CRLF; "AT" ++ CRLF] None)))
    by (vm_compute; reflexivity).
  split; [exact Hrun|].
  exact (proj1 (report_is_iteration_major demo_re_error demo_re_find demo_wrap
                  demo_format_2f demo_tk_str _ _ _ _ _ Hrun)).
Defined.

Lemma wrapped_command_on_the_wire_witness :
  (<["command" := PStr "AT+CMD =1"]> ∅ : gmap string (pyval Z)) !! "command"
    = Some (PStr "AT+CMD =1")
  ∧ Forall (λ l, has_newline l = false) (two_line_wrap "AT+CMD =1" 50)
  ∧ ∃ r, pending_item two_line_wrap demo_tk_str 1
           (<["command" := PStr "AT+CMD =1"]> ∅) = Ok r
       ∧ wire_text r = "AT+CMD =1" ++ CRLF.
Proof.
  assert (Hc : (<["command" := PStr "AT+CMD =1"]> ∅ : gmap string (pyval Z))
               !! "command" = Some (PStr "AT+CMD =1")) by reflexivity.
  assert (Hnl : Forall (λ l, has_newline l = false) (two_line_wrap "AT+CMD =1" 50))
    by (repeat constructor).
  split; [exact Hc|]. split; [exact Hnl|].
  eexists. split; [reflexivity|].
  exact (proj1 (wrapped_command_on_the_wire two_line_wrap demo_tk_str 1 _
                  "AT+CMD =1" _ Hc Hnl eq_refl)).
Defined.

Lemma hidden_fields_do_not_matter_witness :
  "print_after" ∈ hidden_fields
  ∧ demo_run_all ((λ t, <["print_after" := PStr "OK"]> t) <$> [at_case ∅])
      true 1 [echo_ok]
    = demo_run_all [at_case ∅] true 1 [echo_ok].
Proof.
  assert (Hk : "print_after" ∈ hidden_fields)
    by (unfold hidden_fields; repeat constructor).
  split; [exact Hk|].
  exact (hidden_fields_do_not_matter demo_re_error demo_re_find demo_wrap
           demo_format_2f demo_tk_str "print_after" (λ _, PStr "OK")
           [at_case ∅] true 1 [echo_ok] Hk).
Defined.

Lemma loaded_plan_always_runs_witness :
  [PDict coloured_record; PNone] ≠ []
  ∧ Forall command_is_text [PDict coloured_record; PNone]
  ∧ ∃ st, demo_run_all (demo_normalize_row <$> [PDict coloured_record; PNone])
            true 0 [echo_ok] = Some (Ran st)
        ∧ escaped st = None
        ∧ List.length (tree st) = 2%nat.
Proof.
  assert (Hne : [PDict coloured_record; PNone (F := Z)] ≠ []) by discriminate.
  assert (Ht : Forall command_is_text [PDict coloured_record; PNone (F := Z)]).
  { repeat constructor. }
  split; [exact Hne|]. split; [exact Ht|].
  destruct (loaded_plan_always_runs demo_float_of_int demo_float_of_str
              demo_float_trunc demo_float_nonzero 1000 demo_re_error demo_re_find
              demo_wrap demo_format_2f demo_tk_str
              [PDict coloured_record; PNone] 0 [echo_ok] Hne Ht)
    as (st & Hst & Hesc & Hlen).
  exists st. split; [exact Hst|]. split; [exact Hesc | exact Hlen].
Defined.

Lemma non_text_command_stops_run_all_witness :
  Exists (λ rec, ¬ command_is_text rec) [PDict coloured_record; numeric_command]
  ∧ ∃ e, demo_run_all
           (demo_normalize_row <$> [PDict coloured_record; numeric_command])
           true 1 [echo_ok] = Some (Crashed e).
Proof.
  assert (Hex : Exists (λ rec, ¬ command_is_text rec)
                  [PDict coloured_record; numeric_command]).
  { apply Exists_cons_tl, Exists_cons_hd. intros H. exact H. }
  split; [exact Hex|].
  exact (non_text_command_stops_run_all demo_float_of_int demo_float_of_str
           demo_float_trunc demo_float_nonzero 1000 demo_re_error demo_re_find
           demo_wrap demo_format_2f demo_tk_str _ true 1 [echo_ok] eq_refl Hex).
Defined.

Lemma report_of_a_run_witness :
  demo_run_all [at_case ∅] true 1 [echo_ok]
    = Some (Ran (RunState [at_line_passed] ["AT" ++ CRLF] None))
  ∧ ∃ html, export_html demo_html_escape [at_line_passed] = Ok html.
Proof.
  assert (Hrun : demo_run_all [at_case ∅] true 1 [echo_ok]
                 = Some (Ran (RunState [at_line_passed] ["AT" ++ CRLF] None)))
    by (vm_compute; reflexivity).
  split; [exact Hrun|].
  exact (proj1 (proj2 (report_of_a_run demo_re_error demo_re_find demo_wrap
                         demo_format_2f demo_tk_str demo_html_escape
                         _ _ _ _ _ Hrun))).
Defined.

Lemma table_is_done_then_pending_witness :
  Forall wf_item [at_line; at_line; at_line]
  ∧ ∃ st n,
      _run_worker demo_re_error demo_re_find demo_format_2f
        [at_line; at_line; at_line] [echo_ok; silent_then_stop; echo_ok] false
        = Some st
      ∧ Forall terminal (take n (tree st))
      ∧ drop n (tree st) = drop n [at_line; at_line; at_line].
Proof.
  assert (Hwf : Forall wf_item [at_line; at_line; at_line])
    by (repeat constructor).
  split; [exact Hwf|].
  destruct (run_worker_total demo_re_error demo_re_find demo_format_2f
              [at_line; at_line; at_line] [echo_ok; silent_then_stop; echo_ok]
              false Hwf) as (st & Hst & _).
  destruct (table_is_done_then_pending demo_re_error demo_re_find demo_format_2f
              _ _ _ _ Hwf Hst) as (n & _ & Hterm & Hdrop & _).
  exists st, n. split; [exact Hst|]. split; [exact Hterm | exact Hdrop].
Defined.
